(** * Blacklist filter of the fusion caller: a shallow embedding

    This development models [filter_blacklisted_ranges.cpp]: the parser of
    blacklist rules, the per-item matching predicate, the bucket index over
    the genome and the driver that tags blacklisted fusions.

    Conventions of the embedding:
    - [position_t] and [int] values are integers in [Z]; signed overflow is
      undefined in C++, statements that depend on its absence say so;
    - [unsigned int] counters are integers in [Z] and their sums wrap
      modulo [2^32];
    - [float] and [double] values are IEEE-754 numbers ([spec_float]),
      rounded to nearest-even at 24 and 53 bits of precision;
    - [std::string] is [string], an [unordered_map] is a [gmap], the
      [std::set] of fusion pointers is a [gset] of indices into the fusion
      collection;
    - the [istringstream] is a record with its unread buffer and its
      [eofbit] and [failbit]. *)

From Stdlib Require Import ZArith Ascii String List Bool Lia.
From Stdlib Require Import Floats.SpecFloat.
From stdpp Require Import base option list list_numbers gmap strings.
From Equations Require Import Equations.

Local Open Scope string_scope.
Local Open Scope list_scope.
Local Open Scope Z_scope.

(** ** Floating point *)

Module Float.

Definition prec32 : Z := 24.
Definition emax32 : Z := 128.
Definition prec64 : Z := 53.
Definition emax64 : Z := 1024.

(** [(double) z] for an [int] [z]: exact, an [int] has at most 32 bits. *)
Definition double_of_int (z : Z) : spec_float :=
  binary_normalize prec64 emax64 z 0 false.

(** [(float) z] for an [int] [z]. *)
Definition float_of_int (z : Z) : spec_float :=
  binary_normalize prec32 emax32 z 0 false.

(** Narrowing conversion [double -> float], rounding to nearest-even. *)
Definition float_of_double (d : spec_float) : spec_float :=
  match d with
  | S754_finite s m e => binary_normalize prec32 emax32 (cond_Zopp s (Zpos m)) e s
  | _ => d
  end.

(** Widening conversion [float -> double] (exact). *)
Definition double_of_float (f : spec_float) : spec_float :=
  match f with
  | S754_finite s m e => binary_normalize prec64 emax64 (cond_Zopp s (Zpos m)) e s
  | _ => f
  end.

Definition double_mul : spec_float -> spec_float -> spec_float :=
  SFmul prec64 emax64.
Definition double_div : spec_float -> spec_float -> spec_float :=
  SFdiv prec64 emax64.

(** The literals [1.0] and [0.5] of type [double]. *)
Definition d_one : spec_float := double_of_int 1.
Definition d_half : spec_float := binary_normalize prec64 emax64 1 (-1) false.

(** [a > b] on doubles and on floats; false when either is a NaN. *)
Definition gt (a b : spec_float) : bool := SFltb b a.

(** The [float] nearest to the quotient of two [int]s, computed as the
    code does: a division of doubles, then the narrowing to [float]. *)
Definition of_ratio (a b : Z) : spec_float :=
  float_of_double (double_div (double_of_int a) (double_of_int b)).

(** [f > 0.5] for a [float] [f]: [f] is widened to [double]. *)
Definition above_half (f : spec_float) : bool := gt (double_of_float f) d_half.

End Float.

(** ** Data model *)

Abbreviation position_t := Z (only parsing).
Abbreviation contig_t := N (only parsing).
Definition float := spec_float.

(** Modelled from the spec: [position_t] is declared in [common.hpp]; the
    spec calls it a signed integer genomic coordinate.  It is taken to be a
    32-bit [int]. *)
Definition position_min : Z := - 2 ^ 31.
Definition position_max : Z := 2 ^ 31 - 1.

(** ** Overlap of two ranges *)

Definition overlapping_fraction (start1 end1 start2 end2 : position_t) : float :=
  if (start1 >=? start2) && (end1 <=? end2) then
    Float.float_of_int 1
  else if (start1 >=? start2) && (start1 <=? end2) then
    Float.float_of_double
      (Float.double_div
         (Float.double_mul Float.d_one (Float.double_of_int (start1 - start2)))
         (Float.double_of_int (end1 - start1 + 1)))
  else if (end1 >=? start2) && (end1 <=? end2) then
    Float.float_of_double
      (Float.double_div
         (Float.double_mul Float.d_one (Float.double_of_int (end2 - end1)))
         (Float.double_of_int (end1 - start1 + 1)))
  else
    Float.float_of_int 0.

(** The overlap fraction as the specification words it: the length of the
    intersection of the two ranges over the length of the first one. *)
Definition intersection_length (start1 end1 start2 end2 : position_t) : Z :=
  Z.max 0 (Z.min end1 end2 - Z.max start1 start2 + 1).

Definition overlapping_fraction_spec (start1 end1 start2 end2 : position_t) : float :=
  Float.float_of_double
    (Float.double_div
       (Float.double_of_int (intersection_length start1 end1 start2 end2))
       (Float.double_of_int (end1 - start1 + 1))).

(** ** Enumerations and records of [common.hpp] and of the filter *)

(** Modelled from the spec: [strand_t] is declared in [common.hpp]; the spec
    gives its two values. *)
Inductive strand_t := FORWARD | REVERSE.

(** Modelled from the spec: [direction_t] is declared in [common.hpp]; the
    spec gives its two values. *)
Inductive direction_t := UPSTREAM | DOWNSTREAM.

Definition strand_eqb (a b : strand_t) : bool :=
  match a, b with
  | FORWARD, FORWARD | REVERSE, REVERSE => true
  | _, _ => false
  end.

Definition direction_eqb (a b : direction_t) : bool :=
  match a, b with
  | UPSTREAM, UPSTREAM | DOWNSTREAM, DOWNSTREAM => true
  | _, _ => false
  end.

(** Modelled from the spec: [gene_t] is declared in [annotation.hpp]; the
    spec describes a shared reference to a gene with a contig, a start and an
    end.  A [gene_t] is a pointer to an annotation record owned by the gene
    catalog.  The pointer is modelled together with its pointee: [addr] is
    the address, the other fields are what [gene->...] reads.  Genes are
    never written by the filter. *)
Module Gene.
Record gene_annotation_t := mk {
  addr : N;
  contig : contig_t;
  start : position_t;
  end_ : position_t
}.
(** [g1 == g2] on pointers. *)
Definition eqb (g1 g2 : gene_annotation_t) : bool := N.eqb (addr g1) (addr g2).
End Gene.
Abbreviation gene_t := Gene.gene_annotation_t (only parsing).

(** Modelled from the spec: [filter_t] and [FILTERS] are declared in
    [common.hpp]; the spec describes a nullable filter tag and a fixed
    "blacklist" reason.  A [filter_t] is a pointer to the name of a filter;
    [NULL] is [None]. *)
Definition filter_t := option string.

(** [FILTERS.at("blacklist")] *)
Definition FILTERS_blacklist : filter_t := Some "blacklist".

Definition filter_is_null (f : filter_t) : bool :=
  match f with None => true | Some _ => false end.

Inductive blacklist_item_type_t :=
| BLACKLIST_RANGE | BLACKLIST_POSITION | BLACKLIST_GENE | BLACKLIST_ANY
| BLACKLIST_SPLIT_READ_DONOR | BLACKLIST_SPLIT_READ_ACCEPTOR
| BLACKLIST_SPLIT_READ_ANY | BLACKLIST_DISCORDANT_MATES
| BLACKLIST_READ_THROUGH | BLACKLIST_LOW_SUPPORT | BLACKLIST_FILTER_SPLICED
| BLACKLIST_NOT_BOTH_SPLICED.

Module Item.
Record blacklist_item_t := mk {
  type : blacklist_item_type_t;
  strand_defined : bool;
  strand : strand_t;
  contig : contig_t;
  start : position_t;
  end_ : position_t;
  gene : gene_t
}.

Definition set_type v (i : blacklist_item_t) :=
  mk v (strand_defined i) (strand i) (contig i) (start i) (end_ i) (gene i).
Definition set_strand_defined v (i : blacklist_item_t) :=
  mk (type i) v (strand i) (contig i) (start i) (end_ i) (gene i).
Definition set_strand v (i : blacklist_item_t) :=
  mk (type i) (strand_defined i) v (contig i) (start i) (end_ i) (gene i).
Definition set_contig v (i : blacklist_item_t) :=
  mk (type i) (strand_defined i) (strand i) v (start i) (end_ i) (gene i).
Definition set_start v (i : blacklist_item_t) :=
  mk (type i) (strand_defined i) (strand i) (contig i) v (end_ i) (gene i).
Definition set_end v (i : blacklist_item_t) :=
  mk (type i) (strand_defined i) (strand i) (contig i) (start i) v (gene i).
Definition set_gene v (i : blacklist_item_t) :=
  mk (type i) (strand_defined i) (strand i) (contig i) (start i) (end_ i) v.
End Item.
Abbreviation blacklist_item_t := Item.blacklist_item_t (only parsing).

(** Modelled from the spec: [fusion_t] is declared in [common.hpp].  These
    are the fields that the filter reads or writes, with the types the spec
    gives them; the three read counts are taken to be [unsigned int]. *)
Module Fusion.
Record fusion_t := mk {
  gene1 : gene_t;
  gene2 : gene_t;
  contig1 : contig_t;
  contig2 : contig_t;
  breakpoint1 : position_t;
  breakpoint2 : position_t;
  direction1 : direction_t;
  direction2 : direction_t;
  predicted_strand1 : strand_t;
  predicted_strand2 : strand_t;
  predicted_strands_ambiguous : bool;
  split_reads1 : Z;
  split_reads2 : Z;
  discordant_mates : Z;
  evalue : float;
  spliced1 : bool;
  spliced2 : bool;
  closest_genomic_breakpoint1 : position_t;
  filter : filter_t
}.

(** [fusion.filter = v] *)
Definition set_filter (v : filter_t) (f : fusion_t) : fusion_t :=
  mk (gene1 f) (gene2 f) (contig1 f) (contig2 f) (breakpoint1 f)
     (breakpoint2 f) (direction1 f) (direction2 f) (predicted_strand1 f)
     (predicted_strand2 f) (predicted_strands_ambiguous f) (split_reads1 f)
     (split_reads2 f) (discordant_mates f) (evalue f) (spliced1 f)
     (spliced2 f) (closest_genomic_breakpoint1 f) v.
End Fusion.
Abbreviation fusion_t := Fusion.fusion_t (only parsing).

(** Sum of two [unsigned int] counters. *)
Definition uint_add (a b : Z) : Z := (a + b) mod 2 ^ 32.

(** ** The string stream *)

Module Stream.

Record istringstream := mk {
  buf : string;      (* what is left to read *)
  eofbit : bool;
  failbit : bool
}.

(** [istringstream iss(s);] *)
Definition init (s : string) : istringstream := mk s false false.

(** [iss.str(s)]: a new buffer, the state flags stay as they are. *)
Definition str (s : string) (iss : istringstream) : istringstream :=
  mk s (eofbit iss) (failbit iss).

Definition good (iss : istringstream) : bool :=
  negb (eofbit iss) && negb (failbit iss).

Definition fail (iss : istringstream) : bool := failbit iss.

(** [isspace] in the "C" locale. *)
Definition isspace (c : ascii) : bool :=
  let n := N_of_ascii c in
  (n =? 32)%N || ((9 <=? n)%N && (n <=? 13)%N).

Definition isdigit (c : ascii) : bool :=
  let n := N_of_ascii c in
  (48 <=? n)%N && (n <=? 57)%N.

Definition digit_value (c : ascii) : Z := Z.of_N (N_of_ascii c) - 48.

Fixpoint skip_ws (s : string) : string :=
  match s with
  | String c r => if isspace c then skip_ws r else s
  | EmptyString => EmptyString
  end.

(** The longest prefix without white space, and what follows it. *)
Fixpoint read_word (s : string) : string * string :=
  match s with
  | String c r =>
      if isspace c then (EmptyString, s)
      else let '(w, r') := read_word r in (String c w, r')
  | EmptyString => (EmptyString, EmptyString)
  end.

(** The longest prefix of digits, and what follows it. *)
Fixpoint read_digits (s : string) : string * string :=
  match s with
  | String c r =>
      if isdigit c then let '(w, r') := read_digits r in (String c w, r')
      else (EmptyString, s)
  | EmptyString => (EmptyString, EmptyString)
  end.

Fixpoint decimal_value_from (acc : Z) (s : string) : Z :=
  match s with
  | String c r => decimal_value_from (10 * acc + digit_value c) r
  | EmptyString => acc
  end.
Definition decimal_value (s : string) : Z := decimal_value_from 0 s.

Definition is_empty (s : string) : bool :=
  match s with EmptyString => true | _ => false end.

(** [iss >> word]: the sentry fails on a stream that is not good or that
    holds white space only; otherwise the next word is read, and [eofbit]
    is set when the end of the buffer stopped the read. *)
Definition extract_string (iss : istringstream) (old : string)
  : istringstream * string :=
  if negb (good iss) then (mk (buf iss) (eofbit iss) true, old)
  else
    match skip_ws (buf iss) with
    | EmptyString => (mk EmptyString true true, old)
    | s =>
        let '(w, r) := read_word s in
        (mk r (is_empty r) false, w)
    end.

(** [iss >> n] for an [int] [n]: an optional sign and decimal digits.
    Without a digit the value is 0 and [failbit] is set; a value that does
    not fit is clamped and [failbit] is set. *)
Definition extract_int (iss : istringstream) (old : Z)
  : istringstream * Z :=
  if negb (good iss) then (mk (buf iss) (eofbit iss) true, old)
  else
    match skip_ws (buf iss) with
    | EmptyString => (mk EmptyString true true, old)
    | s =>
        let '(neg, s1) :=
          match s with
          | String c r =>
              if Ascii.eqb c "-" then (true, r)
              else if Ascii.eqb c "+" then (false, r)
              else (false, s)
          | EmptyString => (false, s)
          end in
        let '(ds, s2) := read_digits s1 in
        match ds with
        | EmptyString => (mk s2 (is_empty s2) true, 0)
        | _ =>
            let v := if neg then - decimal_value ds else decimal_value ds in
            if v >? position_max then (mk s2 (is_empty s2) true, position_max)
            else if v <? position_min then (mk s2 (is_empty s2) true, position_min)
            else (mk s2 (is_empty s2) false, v)
        end
    end.

End Stream.

(** ** Parsing of blacklist rules *)

(** [replace(s.begin(), s.end(), a, b)] *)
Fixpoint replace (a b : ascii) (s : string) : string :=
  match s with
  | String c r => String (if Ascii.eqb c a then b else c) (replace a b r)
  | EmptyString => EmptyString
  end.

(** [s.find(c) != string::npos] for a one-character needle. *)
Fixpoint contains (a : ascii) (s : string) : bool :=
  match s with
  | String c r => Ascii.eqb c a || contains a r
  | EmptyString => false
  end.

(** One line written to [cerr]. *)
Definition warning (range : string) : string :=
  ("WARNING: unknown gene or malformed range: " ++ range)%string.

(** The result of a parser: its return value, the item it wrote to, and the
    lines it sent to [cerr]. *)
Definition parsed : Type := bool * blacklist_item_t * list string.

Definition parse_range (range : string) (contigs : gmap string contig_t)
    (blacklist_item : blacklist_item_t) : parsed :=
  let iss := Stream.init EmptyString in
  let contig_name := EmptyString in
  (* extract contig from range *)
  let range := replace ":" " " range in
  let iss := Stream.str range iss in
  let '(iss, contig_name) := Stream.extract_string iss contig_name in
  match contig_name with
  | EmptyString => (false, blacklist_item, [warning range])
  | String c0 rest =>
      let '(blacklist_item, contig_name) :=
        if Ascii.eqb c0 "+" then
          (Item.set_strand FORWARD (Item.set_strand_defined true blacklist_item), rest)
        else if Ascii.eqb c0 "-" then
          (Item.set_strand REVERSE (Item.set_strand_defined true blacklist_item), rest)
        else
          (Item.set_strand_defined false blacklist_item, contig_name) in
      match contigs !! contig_name with
      | None => (false, blacklist_item, [warning range])
      | Some c =>
          let blacklist_item := Item.set_contig c blacklist_item in
          (* extract start (and end) of range *)
          if contains "-" range then
            let range := replace "-" " " range in
            let iss := Stream.str range iss in
            let '(iss, contig_name) := Stream.extract_string iss contig_name in
            let '(iss, v) := Stream.extract_int iss (Item.start blacklist_item) in
            let blacklist_item := Item.set_start v blacklist_item in
            if Stream.fail iss then (false, blacklist_item, [warning range])
            else
              let '(iss, v) := Stream.extract_int iss (Item.end_ blacklist_item) in
              let blacklist_item := Item.set_end v blacklist_item in
              if Stream.fail iss then (false, blacklist_item, [warning range])
              else
                let blacklist_item :=
                  Item.set_start (Item.start blacklist_item - 1) blacklist_item in
                let blacklist_item :=
                  Item.set_end (Item.end_ blacklist_item - 1) blacklist_item in
                (true, blacklist_item, [])
          else
            let '(iss, v) := Stream.extract_int iss (Item.start blacklist_item) in
            let blacklist_item := Item.set_start v blacklist_item in
            if Stream.fail iss then (false, blacklist_item, [warning range])
            else
              let blacklist_item :=
                Item.set_start (Item.start blacklist_item - 1) blacklist_item in
              let blacklist_item :=
                Item.set_end (Item.start blacklist_item) blacklist_item in
              (true, blacklist_item, [])
      end
  end.

Definition parse_blacklist_item (text : string) (blacklist_item : blacklist_item_t)
    (contigs : gmap string contig_t) (genes : gmap string gene_t)
    (allow_keyword : bool) : parsed :=
  let keyword t := (true, Item.set_type t blacklist_item, []) in
  if allow_keyword && String.eqb text "any" then keyword BLACKLIST_ANY
  else if allow_keyword && String.eqb text "split_read_donor" then
    keyword BLACKLIST_SPLIT_READ_DONOR
  else if allow_keyword && String.eqb text "split_read_acceptor" then
    keyword BLACKLIST_SPLIT_READ_ACCEPTOR
  else if allow_keyword && String.eqb text "split_read_any" then
    keyword BLACKLIST_SPLIT_READ_ANY
  else if allow_keyword && String.eqb text "discordant_mates" then
    keyword BLACKLIST_DISCORDANT_MATES
  else if allow_keyword && String.eqb text "read_through" then
    keyword BLACKLIST_READ_THROUGH
  else if allow_keyword && String.eqb text "low_support" then
    keyword BLACKLIST_LOW_SUPPORT
  else if allow_keyword && String.eqb text "filter_spliced" then
    keyword BLACKLIST_FILTER_SPLICED
  else if allow_keyword && String.eqb text "not_both_spliced" then
    keyword BLACKLIST_NOT_BOTH_SPLICED
  else
    match genes !! text with
    | Some gene => (* text is a gene name *)
        (true,
         Item.set_end (Gene.end_ gene)
           (Item.set_start (Gene.start gene)
              (Item.set_contig (Gene.contig gene)
                 (Item.set_gene gene
                    (Item.set_type BLACKLIST_GENE blacklist_item)))),
         [])
    | None =>
        let '(ok, blacklist_item, cerr) := parse_range text contigs blacklist_item in
        if ok then (* text is a range *)
          if Item.start blacklist_item =? Item.end_ blacklist_item then
            (true, Item.set_type BLACKLIST_POSITION blacklist_item, cerr)
          else
            (true, Item.set_type BLACKLIST_RANGE blacklist_item, cerr)
        else (false, blacklist_item, cerr) (* failed to parse text *)
    end.

(** ** Buckets of the genome *)

Definition bucket_size : Z := 100000.

Abbreviation index_key_t := (contig_t * position_t)%type (only parsing).

(** The loop of [get_index_keys_from_range]; [last] is the bound
    [(end+bucket_size-1)/bucket_size], evaluated at each test. *)
Equations? index_keys_loop (contig : contig_t) (last position : position_t)
    (index_keys : list index_key_t) : list index_key_t
    by wf (Z.to_nat (last + 1 - position)) lt :=
  index_keys_loop contig last position index_keys with Z_le_dec position last := {
    | left _ =>
        index_keys_loop contig last (position + 1)
          (index_keys ++ [(contig, position * bucket_size)]);
    | right _ => index_keys }.
Proof. lia. Qed.

(** Integer division of C++ truncates towards zero: [Z.quot]. *)
Definition get_index_keys_from_range (contig : contig_t) (start end_ : position_t)
    (index_keys : list index_key_t) : list index_key_t :=
  index_keys_loop contig (Z.quot (end_ + bucket_size - 1) bucket_size)
    (Z.quot start bucket_size) index_keys.

(** ** Matching and the driver *)

(** [fusions_by_coordinate]: a pointer to a fusion is its position in the
    fusion collection. *)
Abbreviation index_t := (gmap index_key_t (gset nat)) (only parsing).

(** What the driver mutates: the fusions, the index and [cerr]. *)
Module State.
Record state := mk {
  fusions : list fusion_t;
  fusions_by_coordinate : index_t;
  cerr : list string
}.
End State.
Abbreviation state := State.state (only parsing).

Section Filter.

(** [fusion_t::is_read_through()] is a member function declared in
    [common.hpp]. *)
Variable is_read_through : fusion_t -> bool.

(** The content of a [blacklist_item_t] that was declared without an
    initialiser. *)
Variable uninitialized : blacklist_item_t.

Definition matches_blacklist_item (blacklist_item : blacklist_item_t)
    (fusion : fusion_t) (which_breakpoint : Z) (evalue_cutoff : float)
    (max_mate_gap : Z) : bool :=
  match Item.type blacklist_item with
  | BLACKLIST_ANY => true
  | BLACKLIST_SPLIT_READ_DONOR =>
      (which_breakpoint =? 1)
        && (uint_add (Fusion.discordant_mates fusion) (Fusion.split_reads1 fusion) =? 0)
      || (which_breakpoint =? 2)
        && (uint_add (Fusion.discordant_mates fusion) (Fusion.split_reads2 fusion) =? 0)
  | BLACKLIST_SPLIT_READ_ACCEPTOR =>
      (which_breakpoint =? 1)
        && (uint_add (Fusion.discordant_mates fusion) (Fusion.split_reads2 fusion) =? 0)
      || (which_breakpoint =? 2)
        && (uint_add (Fusion.discordant_mates fusion) (Fusion.split_reads1 fusion) =? 0)
  | BLACKLIST_SPLIT_READ_ANY => Fusion.discordant_mates fusion =? 0
  | BLACKLIST_DISCORDANT_MATES =>
      uint_add (Fusion.split_reads1 fusion) (Fusion.split_reads2 fusion) =? 0
  | BLACKLIST_READ_THROUGH => is_read_through fusion
  | BLACKLIST_LOW_SUPPORT => Float.gt (Fusion.evalue fusion) evalue_cutoff
  | BLACKLIST_FILTER_SPLICED =>
      Float.gt (Fusion.evalue fusion) evalue_cutoff
        && Fusion.spliced1 fusion && Fusion.spliced2 fusion
  | BLACKLIST_NOT_BOTH_SPLICED =>
      negb (Fusion.spliced1 fusion) || negb (Fusion.spliced2 fusion)
  | BLACKLIST_GENE =>
      (which_breakpoint =? 1) && Gene.eqb (Fusion.gene1 fusion) (Item.gene blacklist_item)
      || (which_breakpoint =? 2) && Gene.eqb (Fusion.gene2 fusion) (Item.gene blacklist_item)
  | BLACKLIST_POSITION =>
      (* contig must match *)
      let contig :=
        if which_breakpoint =? 1 then Fusion.contig1 fusion else Fusion.contig2 fusion in
      if negb (N.eqb contig (Item.contig blacklist_item)) then false
      else
        (* strand must match, if defined *)
        let strand :=
          if which_breakpoint =? 1 then Fusion.predicted_strand1 fusion
          else Fusion.predicted_strand2 fusion in
        if Item.strand_defined blacklist_item
           && negb (Fusion.predicted_strands_ambiguous fusion)
           && negb (strand_eqb strand (Item.strand blacklist_item))
        then false
        else
          (* exact breakpoint must match *)
          let breakpoint :=
            if which_breakpoint =? 1 then Fusion.breakpoint1 fusion
            else Fusion.breakpoint2 fusion in
          if breakpoint =? Item.start blacklist_item then true
          else
            let direction :=
              if which_breakpoint =? 1 then Fusion.direction1 fusion
              else Fusion.direction2 fusion in
            if (uint_add (Fusion.split_reads1 fusion) (Fusion.split_reads2 fusion) =? 0)
               && (direction_eqb direction DOWNSTREAM
                     && (breakpoint <=? Item.start blacklist_item)
                     && (breakpoint >=? Item.start blacklist_item - max_mate_gap)
                   || direction_eqb direction UPSTREAM
                     && (breakpoint >=? Item.start blacklist_item)
                     && (breakpoint <=? Item.start blacklist_item + max_mate_gap))
            then true
            else false
  | BLACKLIST_RANGE =>
      (* contig must match *)
      let contig :=
        if which_breakpoint =? 1 then Fusion.contig1 fusion else Fusion.contig2 fusion in
      if negb (N.eqb contig (Item.contig blacklist_item)) then false
      else
        (* strand must match, if defined *)
        let strand :=
          if which_breakpoint =? 1 then Fusion.predicted_strand1 fusion
          else Fusion.predicted_strand2 fusion in
        if Item.strand_defined blacklist_item
           && negb (Fusion.predicted_strands_ambiguous fusion)
           && negb (strand_eqb strand (Item.strand blacklist_item))
        then false
        else
          let gene :=
            if which_breakpoint =? 1 then Fusion.gene1 fusion else Fusion.gene2 fusion in
          if Float.above_half
               (overlapping_fraction (Gene.start gene) (Gene.end_ gene)
                  (Item.start blacklist_item) (Item.end_ blacklist_item))
          then true
          else false
  end.

(** The condition under which a line condemns a fusion. *)
Definition line_matches (item1 item2 : blacklist_item_t) (fusion : fusion_t)
    (evalue_cutoff : float) (max_mate_gap : Z) : bool :=
  matches_blacklist_item item1 fusion 1 evalue_cutoff max_mate_gap
    && matches_blacklist_item item2 fusion 2 evalue_cutoff max_mate_gap
  || matches_blacklist_item item1 fusion 2 evalue_cutoff max_mate_gap
    && matches_blacklist_item item2 fusion 1 evalue_cutoff max_mate_gap.

(** [fusions_by_coordinate[key].insert(ptr)] *)
Definition index_insert (ptr : nat) (index : index_t) (key : index_key_t) : index_t :=
  <[key := {[ptr]} ∪ default ∅ (index !! key)]> index.

Definition has_coordinates (item : blacklist_item_t) : bool :=
  match Item.type item with
  | BLACKLIST_POSITION | BLACKLIST_RANGE | BLACKLIST_GENE => true
  | _ => false
  end.

(** Body of the loop that builds the index. *)
Definition index_fusion (index : index_t) (ptr : nat) (fusion : fusion_t) : index_t :=
  if negb (filter_is_null (Fusion.filter fusion))
     && (Fusion.closest_genomic_breakpoint1 fusion <? 0)
  then index (* already filtered, not recoverable by 'genomic_support' *)
  else
    let index_keys := [] in
    let index_keys :=
      get_index_keys_from_range (Fusion.contig1 fusion)
        (Fusion.breakpoint1 fusion) (Fusion.breakpoint1 fusion) index_keys in
    let index_keys :=
      get_index_keys_from_range (Fusion.contig2 fusion)
        (Fusion.breakpoint2 fusion) (Fusion.breakpoint2 fusion) index_keys in
    let index_keys :=
      get_index_keys_from_range (Fusion.contig1 fusion)
        (Gene.start (Fusion.gene1 fusion)) (Gene.end_ (Fusion.gene1 fusion))
        index_keys in
    let index_keys :=
      get_index_keys_from_range (Fusion.contig2 fusion)
        (Gene.start (Fusion.gene2 fusion)) (Gene.end_ (Fusion.gene2 fusion))
        index_keys in
    foldl (index_insert ptr) index index_keys.

Fixpoint build_index_from (ptr : nat) (fusions : list fusion_t) (index : index_t)
  : index_t :=
  match fusions with
  | [] => index
  | fusion :: rest => build_index_from (S ptr) rest (index_fusion index ptr fusion)
  end.

Definition build_index (fusions : list fusion_t) : index_t :=
  build_index_from 0 fusions ∅.

Section Line.
Variables (contigs : gmap string contig_t) (genes : gmap string gene_t).
Variables (evalue_cutoff : float) (max_mate_gap : Z).

(** One step of the loop over a bucket: tag the fusion and erase it from
    the bucket when the line matches. *)
Definition visit_fusion (item1 item2 : blacklist_item_t)
    (acc : list fusion_t * gset nat) (ptr : nat) : list fusion_t * gset nat :=
  match acc.1 !! ptr with
  | Some fusion =>
      if line_matches item1 item2 fusion evalue_cutoff max_mate_gap then
        (<[ptr := Fusion.set_filter FILTERS_blacklist fusion]> acc.1,
         acc.2 ∖ {[ptr]})
      else acc
  | None => acc
  end.

(** One step of the loop over the index keys of a line. *)
Definition visit_key (item1 item2 : blacklist_item_t)
    (acc : list fusion_t * index_t) (index_key : index_key_t)
  : list fusion_t * index_t :=
  match acc.2 !! index_key with
  | Some fusions_near_coordinate =>
      let '(fusions', bucket') :=
        foldl (visit_fusion item1 item2) (acc.1, fusions_near_coordinate)
          (elements fusions_near_coordinate) in
      (fusions', <[index_key := bucket']> acc.2)
  | None => acc
  end.

Definition line_index_keys (item1 item2 : blacklist_item_t) : list index_key_t :=
  let index_keys := [] in
  let index_keys :=
    if has_coordinates item1 then
      get_index_keys_from_range (Item.contig item1)
        (Item.start item1 - max_mate_gap) (Item.end_ item1 + max_mate_gap)
        index_keys
    else index_keys in
  if has_coordinates item2 then
    get_index_keys_from_range (Item.contig item2)
      (Item.start item2 - max_mate_gap) (Item.end_ item2 + max_mate_gap)
      index_keys
  else index_keys.

Definition is_comment (line : string) : bool :=
  match line with
  | EmptyString => true
  | String c _ => Ascii.eqb c "#"
  end.

(** Body of the loop over the lines of the blacklist. *)
Definition process_line (st : state) (line : string) : state :=
  if is_comment line then st
  else
    let iss := Stream.init line in
    let '(iss, range1) := Stream.extract_string iss EmptyString in
    let '(iss, range2) := Stream.extract_string iss EmptyString in
    let '(ok1, item1, cerr1) :=
      parse_blacklist_item range1 uninitialized contigs genes false in
    if negb ok1 then
      State.mk (State.fusions st) (State.fusions_by_coordinate st) (State.cerr st ++ cerr1)
    else
      let '(ok2, item2, cerr2) :=
        parse_blacklist_item range2 uninitialized contigs genes true in
      if negb ok2 then
        State.mk (State.fusions st) (State.fusions_by_coordinate st) (State.cerr st ++ cerr1 ++ cerr2)
      else
        let '(fusions', index') :=
          foldl (visit_key item1 item2) (State.fusions st, State.fusions_by_coordinate st)
            (line_index_keys item1 item2) in
        State.mk fusions' index' (State.cerr st ++ cerr1 ++ cerr2).

(** [remaining], an [unsigned int]. *)
Definition count_remaining (fusions : list fusion_t) : Z :=
  Z.of_nat (length (List.filter (fun f => filter_is_null (Fusion.filter f)) fusions))
    mod 2 ^ 32.

(** The filter: [blacklist_file] holds the lines of the decompressed
    blacklist.  The result is the state at the end and the value
    returned. *)
Definition filter_blacklisted_ranges (fusions : list fusion_t)
    (blacklist_file : list string) : state * Z :=
  let st := State.mk fusions (build_index fusions) [] in
  let st := foldl process_line st blacklist_file in
  (st, count_remaining (State.fusions st)).
End Line.

End Filter.

(** ** Vocabulary of the statements *)

(** The side of a fusion that [which_breakpoint] selects. *)
Definition side_contig (which_breakpoint : Z) (fusion : fusion_t) : contig_t :=
  if which_breakpoint =? 1 then Fusion.contig1 fusion else Fusion.contig2 fusion.
Definition side_strand (which_breakpoint : Z) (fusion : fusion_t) : strand_t :=
  if which_breakpoint =? 1 then Fusion.predicted_strand1 fusion
  else Fusion.predicted_strand2 fusion.
Definition side_gene (which_breakpoint : Z) (fusion : fusion_t) : gene_t :=
  if which_breakpoint =? 1 then Fusion.gene1 fusion else Fusion.gene2 fusion.

(** The gate of the POSITION and RANGE items: same contig, and the strand of
    the item, when it has one, is the predicted strand unless the prediction
    is ambiguous. *)
Definition passes_gate (item : blacklist_item_t) (fusion : fusion_t)
    (which_breakpoint : Z) : Prop :=
  side_contig which_breakpoint fusion = Item.contig item
  ∧ (Item.strand_defined item = true →
     Fusion.predicted_strands_ambiguous fusion = false →
     side_strand which_breakpoint fusion = Item.strand item).

(** Ceiling of a quotient, for a positive divisor. *)
Definition ceil_div (a b : Z) : Z := - ((- a) / b).

(** Shapes of the tokens of a rule.  A plain character is none of the
    separators of the rule language: white space, [:] and [-]. *)
Definition plain_char (c : ascii) : bool :=
  negb (Stream.isspace c) && negb (Ascii.eqb c ":") && negb (Ascii.eqb c "-").

Fixpoint all_chars (p : ascii → bool) (s : string) : bool :=
  match s with
  | String c r => p c && all_chars p r
  | EmptyString => true
  end.

(** A character of a word without a colon. *)
Definition word_char (c : ascii) : bool :=
  negb (Stream.isspace c) && negb (Ascii.eqb c ":").

(** The keywords of the rule language. *)
Definition keywords : list string :=
  ["any"; "split_read_donor"; "split_read_acceptor"; "split_read_any";
   "discordant_mates"; "read_through"; "low_support"; "filter_spliced";
   "not_both_spliced"].

(** The item type of each keyword. *)
Definition keyword_types : list (string * blacklist_item_type_t) :=
  [("any", BLACKLIST_ANY);
   ("split_read_donor", BLACKLIST_SPLIT_READ_DONOR);
   ("split_read_acceptor", BLACKLIST_SPLIT_READ_ACCEPTOR);
   ("split_read_any", BLACKLIST_SPLIT_READ_ANY);
   ("discordant_mates", BLACKLIST_DISCORDANT_MATES);
   ("read_through", BLACKLIST_READ_THROUGH);
   ("low_support", BLACKLIST_LOW_SUPPORT);
   ("filter_spliced", BLACKLIST_FILTER_SPLICED);
   ("not_both_spliced", BLACKLIST_NOT_BOTH_SPLICED)].

(** The keywords whose condition does not look at the side of the fusion. *)
Definition sideless_types : list blacklist_item_type_t :=
  [BLACKLIST_ANY; BLACKLIST_SPLIT_READ_ANY; BLACKLIST_DISCORDANT_MATES;
   BLACKLIST_READ_THROUGH; BLACKLIST_LOW_SUPPORT; BLACKLIST_FILTER_SPLICED;
   BLACKLIST_NOT_BOTH_SPLICED].


(** A contig name made of plain characters. *)
Definition plain_name (name : string) : Prop :=
  name ≠ EmptyString ∧ all_chars plain_char name = true.

(** A plain name that a strand prefix cannot be mistaken for. *)
Definition unsigned_name (name : string) : Prop :=
  plain_name name ∧ ∀ r, name ≠ String "+" r.

(** An unsigned decimal numeral that fits a [position_t]. *)
Definition numeral (s : string) : Prop :=
  s ≠ EmptyString
  ∧ all_chars Stream.isdigit s = true
  ∧ Stream.decimal_value s <= position_max.

(** What [parse_range] leaves in the item it was given when it succeeds. *)
Definition parsed_range (item : blacklist_item_t) (strand : option strand_t)
    (contig : contig_t) (start end_ : position_t) : blacklist_item_t :=
  Item.mk (Item.type item)
    (match strand with Some _ => true | None => false end)
    (match strand with Some s => s | None => Item.strand item end)
    contig start end_ (Item.gene item).

(** The index keys under which the driver registers a fusion. *)
Definition fusion_index_keys (fusion : fusion_t) : list index_key_t :=
  get_index_keys_from_range (Fusion.contig2 fusion)
    (Gene.start (Fusion.gene2 fusion)) (Gene.end_ (Fusion.gene2 fusion))
    (get_index_keys_from_range (Fusion.contig1 fusion)
       (Gene.start (Fusion.gene1 fusion)) (Gene.end_ (Fusion.gene1 fusion))
       (get_index_keys_from_range (Fusion.contig2 fusion)
          (Fusion.breakpoint2 fusion) (Fusion.breakpoint2 fusion)
          (get_index_keys_from_range (Fusion.contig1 fusion)
             (Fusion.breakpoint1 fusion) (Fusion.breakpoint1 fusion) []))).

(** The fusions that the driver registers in the index: those without a
    filter tag, and those that 'genomic_support' may recover. *)
Definition eligible (fusion : fusion_t) : bool :=
  filter_is_null (Fusion.filter fusion)
  || (0 <=? Fusion.closest_genomic_breakpoint1 fusion).

(** [ptr] is registered under [key]. *)
Definition indexed (index : index_t) (key : index_key_t) (ptr : nat) : Prop :=
  ∃ bucket : gset nat, index !! key = Some bucket ∧ ptr ∈ bucket.

(** The tag that the filter writes. *)
Definition tag (fusion : fusion_t) : fusion_t :=
  Fusion.set_filter FILTERS_blacklist fusion.

(** A fusion that carries the tag keeps it. *)
Definition keeps_tags (c r : list fusion_t * gmap index_key_t (gset nat)) : Prop :=
  ∀ i f, c.1 !! i = Some (tag f) → r.1 !! i = Some (tag f).

(** The first two words of a line. *)
Definition line_tokens (line : string) : string * string :=
  let iss := Stream.init line in
  let '(iss, range1) := Stream.extract_string iss EmptyString in
  let '(iss, range2) := Stream.extract_string iss EmptyString in
  (range1, range2).

Section Lines.
Variable is_read_through : fusion_t → bool.
Variable uninitialized : blacklist_item_t.
Variables (contigs : gmap string contig_t) (genes : gmap string gene_t).
Variables (evalue_cutoff : float) (max_mate_gap : Z).

(** The two items of a line that is not a comment and whose tokens both
    resolve. *)
Definition line_items (line : string) : option (blacklist_item_t * blacklist_item_t) :=
  if is_comment line then None
  else
    match parse_blacklist_item (line_tokens line).1 uninitialized contigs genes false with
    | (true, item1, _) =>
        match parse_blacklist_item (line_tokens line).2 uninitialized contigs genes true with
        | (true, item2, _) => Some (item1, item2)
        | _ => None
        end
    | _ => None
    end.

(** What a line sends to [cerr]. *)
Definition line_warnings (line : string) : list string :=
  if is_comment line then []
  else
    match parse_blacklist_item (line_tokens line).1 uninitialized contigs genes false with
    | (true, _, cerr1) =>
        cerr1 ++ (parse_blacklist_item (line_tokens line).2 uninitialized contigs
                    genes true).2
    | (false, _, cerr1) => cerr1
    end.

(** The line matches the fusion and shares an index key with it. *)
Definition condemns (line : string) (fusion : fusion_t) : Prop :=
  ∃ item1 item2 key,
    line_items line = Some (item1, item2)
    ∧ line_matches is_read_through item1 item2 fusion evalue_cutoff max_mate_gap = true
    ∧ key ∈ line_index_keys max_mate_gap item1 item2
    ∧ key ∈ fusion_index_keys fusion.

(** The fusion is in the index and some line of the blacklist condemns
    it. *)
Definition condemned (blacklist_file : list string) (fusion : fusion_t) : Prop :=
  eligible fusion = true
  ∧ ∃ line, line ∈ blacklist_file ∧ condemns line fusion.

(** The fusions and the index of a state. *)
Definition core (st : state) : list fusion_t * index_t :=
  (State.fusions st, State.fusions_by_coordinate st).

(** What a line does to the fusions and to the index. *)
Definition line_step (c : list fusion_t * index_t) (line : string)
  : list fusion_t * index_t :=
  match line_items line with
  | Some (item1, item2) =>
      foldl (visit_key is_read_through evalue_cutoff max_mate_gap item1 item2) c
        (line_index_keys max_mate_gap item1 item2)
  | None => c
  end.

(** The invariant of the loops of the driver, relative to the fusions and
    the blacklist it was started on: a fusion is as it was or carries the
    tag of a line that condemns it; the index holds eligible fusions under
    their own keys only; an eligible fusion is under each of its keys
    until it is tagged. *)
Definition invariant (fusions0 : list fusion_t) (blacklist_file : list string)
    (c : list fusion_t * index_t) : Prop :=
  length c.1 = length fusions0
  ∧ (∀ i f0, fusions0 !! i = Some f0 →
       c.1 !! i = Some f0
       ∨ (c.1 !! i = Some (tag f0) ∧ condemned blacklist_file f0))
  ∧ (∀ key i, indexed c.2 key i →
       ∃ f0, fusions0 !! i = Some f0 ∧ eligible f0 = true
             ∧ key ∈ fusion_index_keys f0)
  ∧ (∀ key i f0, fusions0 !! i = Some f0 → eligible f0 = true →
       key ∈ fusion_index_keys f0 →
       indexed c.2 key i ∨ c.1 !! i = Some (tag f0)).
End Lines.

(** ** Sample data *)

Module Sample.
Definition chr1 : contig_t := 1%N.
Definition chr2 : contig_t := 2%N.

Definition contigs : gmap string contig_t :=
  <["chr1" := chr1]> (<["chr2" := chr2]> (<["chr-1" := 3%N]> ∅)).

Definition gene (addr : N) (contig : contig_t) (start end_ : position_t) : gene_t :=
  Gene.mk addr contig start end_.

Definition BRCA1 : gene_t := gene 100 chr1 900 1100.
Definition TP53 : gene_t := gene 101 chr2 5000 6000.

Definition genes : gmap string gene_t :=
  <["BRCA1" := BRCA1]> (<["TP53" := TP53]> ∅).

Definition zero : float := S754_zero false.

(** A fusion between [gene1] on chr1 and [gene2] on chr2. *)
Definition fusion (gene1 gene2 : gene_t) (breakpoint1 breakpoint2 : position_t)
    (split_reads1 split_reads2 discordant_mates : Z)
    (closest_genomic_breakpoint1 : position_t) (filter : filter_t) : fusion_t :=
  Fusion.mk gene1 gene2 chr1 chr2 breakpoint1 breakpoint2 DOWNSTREAM UPSTREAM
    FORWARD REVERSE false split_reads1 split_reads2 discordant_mates zero
    false false closest_genomic_breakpoint1 filter.

(** The item of the token [chr1:<start+1>-<end+1>]. *)
Definition range_item (start end_ : position_t) : blacklist_item_t :=
  Item.mk BLACKLIST_RANGE false FORWARD chr1 start end_ BRCA1.


Definition uninitialized : blacklist_item_t :=
  Item.mk BLACKLIST_RANGE false FORWARD 0%N 0 0 (gene 0 0%N 0 0).

Definition is_read_through (f : fusion_t) : bool :=
  N.eqb (Fusion.contig1 f) (Fusion.contig2 f).

(** Two fusions that an earlier filter tagged; 'genomic_support' may
    recover the first one only. *)
Definition recoverable : fusion_t :=
  fusion BRCA1 TP53 1000 5500 1 1 1 500 (Some "duplicates").
Definition lost : fusion_t :=
  fusion BRCA1 TP53 1000 5500 1 1 1 (-1) (Some "duplicates").


Definition run : list fusion_t → list string → state * Z :=
  filter_blacklisted_ranges is_read_through uninitialized contigs genes zero 0.
End Sample.

(** ** The overlap fraction *)

Lemma overlapping_fraction_contained start1 end1 start2 end2 :
  start2 <= start1 → end1 <= end2 →
  overlapping_fraction start1 end1 start2 end2 = Float.float_of_int 1.
Proof.
  intros Hs He. unfold overlapping_fraction.
  replace (start1 >=? start2) with true by lia.
  replace (end1 <=? end2) with true by lia.
  reflexivity.
Qed.

Lemma overlapping_fraction_same a b :
  overlapping_fraction a b a b = Float.float_of_int 1.
Proof. apply overlapping_fraction_contained; lia. Qed.

Lemma overlapping_fraction_disjoint start1 end1 start2 end2 :
  start1 <= end1 → start2 <= end2 →
  end1 < start2 ∨ end2 < start1 →
  overlapping_fraction start1 end1 start2 end2 = Float.float_of_int 0.
Proof.
  intros H1 H2 Hdisj. unfold overlapping_fraction.
  destruct Hdisj.
  - replace (start1 >=? start2) with false by lia.
    replace (end1 >=? start2) with false by lia.
    reflexivity.
  - replace (end1 <=? end2) with false by lia.
    replace (start1 <=? end2) with false by lia.
    rewrite !andb_false_r. reflexivity.
Qed.

(** C1. On a partial overlap [overlapping_fraction] is not the length of the
    intersection over the length of the gene.  The gene [8,17] shares the 2
    bases [8,9] with the range [0,9], a fraction of 2/10, and the function
    returns 8/10: the distance between the two starts over the gene length.
    The gene [2,11] of the same length shares 8 bases with the range and
    gets the smaller value 2/10, so the result does not grow with the
    intersection either. *)
Theorem overlapping_fraction_partial_overlap :
  intersection_length 8 17 0 9 = 2
  ∧ overlapping_fraction_spec 8 17 0 9 = Float.of_ratio 2 10
  ∧ overlapping_fraction 8 17 0 9 = Float.of_ratio 8 10
  ∧ overlapping_fraction 8 17 0 9 ≠ overlapping_fraction_spec 8 17 0 9
  ∧ intersection_length 2 11 0 9 = 8
  ∧ overlapping_fraction 2 11 0 9 = Float.of_ratio 2 10
  ∧ Float.gt (overlapping_fraction 2 11 0 9) (overlapping_fraction 8 17 0 9) = false
  ∧ Float.gt (overlapping_fraction 8 17 0 9) (overlapping_fraction 2 11 0 9) = true.
Proof. repeat split; try (vm_compute; congruence). Qed.

(** ** Matching of one item *)

Section Matching.
Variable is_read_through : fusion_t → bool.
Variables (evalue_cutoff : float) (max_mate_gap : Z).

Lemma gate_contig item fusion wb :
  passes_gate item fusion wb →
  negb (N.eqb (side_contig wb fusion) (Item.contig item)) = false.
Proof. intros [-> _]. by rewrite N.eqb_refl. Qed.

Lemma strand_eqb_eq a b : strand_eqb a b = true ↔ a = b.
Proof. destruct a, b; simpl; split; congruence. Qed.


Lemma gate_strand item fusion wb :
  passes_gate item fusion wb →
  Item.strand_defined item
    && negb (Fusion.predicted_strands_ambiguous fusion)
    && negb (strand_eqb (side_strand wb fusion) (Item.strand item)) = false.
Proof.
  intros [_ Hs].
  destruct (Item.strand_defined item); [|done].
  destruct (Fusion.predicted_strands_ambiguous fusion); [done|].
  simpl. rewrite (proj2 (strand_eqb_eq _ _)); auto.
Qed.

(** Behind the gate a RANGE item is decided by the threshold alone. *)
Lemma range_item_threshold item fusion wb :
  Item.type item = BLACKLIST_RANGE →
  passes_gate item fusion wb →
  matches_blacklist_item is_read_through item fusion wb evalue_cutoff max_mate_gap
  = Float.above_half
      (overlapping_fraction
         (Gene.start (side_gene wb fusion)) (Gene.end_ (side_gene wb fusion))
         (Item.start item) (Item.end_ item)).
Proof.
  intros Ht Hg. unfold matches_blacklist_item. rewrite Ht.
  fold (side_contig wb fusion) (side_strand wb fusion) (side_gene wb fusion).
  rewrite (gate_contig _ _ _ Hg), (gate_strand _ _ _ Hg).
  by destruct (Float.above_half _).
Qed.


End Matching.



(** C2. Three RANGE items behind the gate on which the decision is not
    "the gene overlaps the range by more than half of its length".
    The gene [8,17] overlaps the range [0,9] by 2/10 and is matched; the
    gene [0,9] overlaps the range [0,8] by 9/10 and is not matched; the gene
    [0,9] overlaps the range [5,20] by exactly 5/10 and is matched. *)
Theorem range_item_partial_overlap is_read_through evalue_cutoff max_mate_gap :
  let fusion g := Sample.fusion g Sample.TP53 1000 5500 1 1 1 (-1) None in
  let matches item g :=
    matches_blacklist_item is_read_through item (fusion g) 1 evalue_cutoff max_mate_gap in
  (passes_gate (Sample.range_item 0 9) (fusion (Sample.gene 7 Sample.chr1 8 17)) 1
   ∧ Float.above_half (overlapping_fraction_spec 8 17 0 9) = false
   ∧ matches (Sample.range_item 0 9) (Sample.gene 7 Sample.chr1 8 17) = true)
  ∧ (passes_gate (Sample.range_item 0 8) (fusion (Sample.gene 7 Sample.chr1 0 9)) 1
     ∧ Float.above_half (overlapping_fraction_spec 0 9 0 8) = true
     ∧ matches (Sample.range_item 0 8) (Sample.gene 7 Sample.chr1 0 9) = false)
  ∧ (passes_gate (Sample.range_item 5 20) (fusion (Sample.gene 7 Sample.chr1 0 9)) 1
     ∧ overlapping_fraction_spec 0 9 5 20 = Float.of_ratio 1 2
     ∧ Float.above_half (overlapping_fraction_spec 0 9 5 20) = false
     ∧ matches (Sample.range_item 5 20) (Sample.gene 7 Sample.chr1 0 9) = true).
Proof.
  repeat split; try discriminate; vm_compute; reflexivity.
Qed.

(** ** Buckets *)

Lemma ceil_div_spec a b :
  0 < b → b * (ceil_div a b - 1) < a <= b * ceil_div a b.
Proof.
  intros Hb. unfold ceil_div.
  pose proof (Z.div_mod (- a) b ltac:(lia)) as Hdm.
  pose proof (Z.mod_pos_bound (- a) b Hb) as Hm.
  nia.
Qed.

Lemma ceil_div_add a b : 0 < b → (a + b - 1) / b = ceil_div a b.
Proof.
  intros Hb. pose proof (ceil_div_spec a b Hb) as Hc.
  symmetry. apply (Z.div_unique_pos _ _ _ (a + b - 1 - b * ceil_div a b)); lia.
Qed.

Lemma index_keys_loop_run contig last (n : nat) : ∀ position index_keys,
  last + 1 - position = Z.of_nat n →
  index_keys_loop contig last position index_keys
  = index_keys ++ ((λ k, (contig, k * bucket_size)) <$> seqZ position (Z.of_nat n)).
Proof.
  induction n as [|n IH]; intros position index_keys Hn; simp index_keys_loop;
    destruct (Z_le_dec position last) as [Hle|Hgt]; try lia; cbn [index_keys_loop_unfold_clause_1].
  - by rewrite seqZ_nil, app_nil_r by lia.
  - rewrite IH by lia. rewrite (seqZ_cons position) by lia.
    rewrite <- app_assoc. cbn [fmap list_fmap app]. do 4 f_equal. lia.
Qed.

Lemma index_keys_loop_done contig last position index_keys :
  last < position →
  index_keys_loop contig last position index_keys = index_keys.
Proof.
  intros Hlt. simp index_keys_loop.
  destruct (Z_le_dec position last); [lia|done].
Qed.

(** The keys of a range, for any signs of the bounds. *)
Lemma get_index_keys_from_range_seqZ contig start end_ index_keys :
  get_index_keys_from_range contig start end_ index_keys
  = index_keys
    ++ ((λ k, (contig, k * bucket_size))
          <$> seqZ (Z.quot start bucket_size)
                (Z.quot (end_ + bucket_size - 1) bucket_size
                 - Z.quot start bucket_size + 1)).
Proof.
  unfold get_index_keys_from_range.
  set (last := Z.quot (end_ + bucket_size - 1) bucket_size).
  set (first := Z.quot start bucket_size).
  destruct (Z_le_dec first last) as [Hle|Hgt].
  - rewrite (index_keys_loop_run contig last (Z.to_nat (last + 1 - first))) by lia.
    do 3 f_equal. lia.
  - rewrite index_keys_loop_done by lia.
    by rewrite seqZ_nil, app_nil_r by lia.
Qed.

(** C8. For [0 <= start <= end], with [end + bucket_size - 1] still a
    [position_t] (the sum is computed in that type),
    [get_index_keys_from_range] appends the keys [(contig, k * 100000)] for
    [k] from the floor of [start / 100000] to the ceiling of
    [end / 100000], both included, in increasing order of [k]. *)
Theorem get_index_keys_from_range_buckets contig start end_ index_keys :
  0 <= start <= end_ →
  end_ + bucket_size - 1 <= position_max →
  get_index_keys_from_range contig start end_ index_keys
  = index_keys
    ++ ((λ k, (contig, k * 100000))
          <$> seqZ (start / 100000)
                (ceil_div end_ 100000 - start / 100000 + 1)).
Proof.
  intros Hse _. rewrite get_index_keys_from_range_seqZ.
  rewrite !Z.quot_div_nonneg by (unfold bucket_size; lia).
  unfold bucket_size. by rewrite (ceil_div_add end_ 100000) by lia.
Qed.

Lemma get_index_keys_from_range_buckets_witness :
  get_index_keys_from_range 1%N 99999 100001 [(2%N, 0)]
  = [(2%N, 0); (1%N, 0); (1%N, 100000); (1%N, 200000)].
Proof.
  rewrite (get_index_keys_from_range_buckets 1%N 99999 100001 [(2%N, 0)]).
  - reflexivity.
  - lia.
  - vm_compute. discriminate.
Defined.

(** ** Reading words and numbers *)

Section Characters.
Variables (p : ascii → bool) (a b : ascii).
Hypothesis p_excludes : ∀ c, p c = true → Ascii.eqb c a = false.

Lemma replace_all_chars s : all_chars p s = true → replace a b s = s.
Proof.
  induction s as [|c r IH]; simpl; [done|].
  intros [Hc Hr]%andb_true_iff. by rewrite (p_excludes _ Hc), IH.
Qed.

Lemma contains_all_chars s : all_chars p s = true → contains a s = false.
Proof.
  induction s as [|c r IH]; simpl; [done|].
  intros [Hc Hr]%andb_true_iff. by rewrite (p_excludes _ Hc), IH.
Qed.
End Characters.

Lemma replace_app a b s t :
  replace a b (s ++ t)%string = (replace a b s ++ replace a b t)%string.
Proof. induction s as [|c r IH]; simpl; [done|]. by rewrite IH. Qed.

Lemma contains_app a s t :
  contains a (s ++ t)%string = contains a s || contains a t.
Proof.
  induction s as [|c r IH]; simpl; [done|]. by rewrite IH, orb_assoc.
Qed.

Lemma plain_not_space c : plain_char c = true → Stream.isspace c = false.
Proof. unfold plain_char. by intros [[?%negb_true_iff _]%andb_true_iff _]%andb_true_iff. Qed.

Lemma plain_not_colon c : plain_char c = true → Ascii.eqb c ":" = false.
Proof. unfold plain_char. by intros [[_ ?%negb_true_iff]%andb_true_iff _]%andb_true_iff. Qed.

Lemma plain_not_minus c : plain_char c = true → Ascii.eqb c "-" = false.
Proof. unfold plain_char. by intros [_ ?%negb_true_iff]%andb_true_iff. Qed.

Lemma digit_cases c :
  Stream.isdigit c = true →
  Stream.isspace c = false ∧ Ascii.eqb c ":" = false ∧ Ascii.eqb c "-" = false
  ∧ Ascii.eqb c "+" = false ∧ 0 <= Stream.digit_value c <= 9.
Proof.
  destruct c as [[] [] [] [] [] [] [] []]; vm_compute; intros; try discriminate;
    repeat split; discriminate.
Qed.

Lemma digit_not_space c : Stream.isdigit c = true → Stream.isspace c = false.
Proof. intros H. apply (digit_cases c H). Qed.
Lemma digit_not_colon c : Stream.isdigit c = true → Ascii.eqb c ":" = false.
Proof. intros H. apply (digit_cases c H). Qed.
Lemma digit_not_minus c : Stream.isdigit c = true → Ascii.eqb c "-" = false.
Proof. intros H. apply (digit_cases c H). Qed.
Lemma digit_not_plus c : Stream.isdigit c = true → Ascii.eqb c "+" = false.
Proof. intros H. apply (digit_cases c H). Qed.

(** A word that is followed by a blank or by the end of the buffer. *)
Lemma read_word_plain p w r :
  (∀ c, p c = true → Stream.isspace c = false) →
  all_chars p w = true →
  Stream.read_word (w ++ String " " r) = (w, String " " r)
  ∧ Stream.read_word w = (w, EmptyString).
Proof.
  intros Hp. induction w as [|c w IH]; simpl; [done|].
  intros [Hc Hw]%andb_true_iff. rewrite (Hp _ Hc).
  destruct (IH Hw) as [-> ->]. done.
Qed.

Lemma read_digits_numeral d r :
  all_chars Stream.isdigit d = true →
  Stream.read_digits (d ++ String " " r) = (d, String " " r)
  ∧ Stream.read_digits d = (d, EmptyString).
Proof.
  induction d as [|c d IH]; simpl; [done|].
  intros [Hc Hd]%andb_true_iff. rewrite Hc.
  destruct (IH Hd) as [-> ->]. done.
Qed.

Lemma decimal_value_from_nonneg d : ∀ acc,
  all_chars Stream.isdigit d = true → 0 <= acc →
  acc <= Stream.decimal_value_from acc d.
Proof.
  induction d as [|c d IH]; simpl; intros acc; [lia|].
  intros [Hc Hd]%andb_true_iff Hacc.
  pose proof (digit_cases c Hc) as (_ & _ & _ & _ & Hv).
  specialize (IH (10 * acc + Stream.digit_value c) Hd). lia.
Qed.

Lemma numeral_fits d :
  numeral d →
  (Stream.decimal_value d >? position_max) = false
  ∧ (Stream.decimal_value d <? position_min) = false.
Proof.
  intros (_ & Hd & Hmax).
  pose proof (decimal_value_from_nonneg d 0 Hd ltac:(lia)) as Hge.
  fold (Stream.decimal_value d) in Hge.
  unfold position_min. split; lia.
Qed.

Lemma skip_ws_word c s :
  Stream.isspace c = false → Stream.skip_ws (String c s) = String c s.
Proof. intros H. simpl. by rewrite H. Qed.

Lemma skip_ws_blank s : Stream.skip_ws (String " " s) = Stream.skip_ws s.
Proof. reflexivity. Qed.

(** [iss >> word] on a good stream whose buffer starts with a word. *)
Lemma extract_string_word p w r old :
  (∀ c, p c = true → Stream.isspace c = false) →
  w ≠ EmptyString → all_chars p w = true →
  Stream.extract_string (Stream.mk (w ++ String " " r) false false) old
  = (Stream.mk (String " " r) false false, w)
  ∧ Stream.extract_string (Stream.mk (String " " (w ++ String " " r)) false false) old
    = (Stream.mk (String " " r) false false, w).
Proof.
  intros Hp Hne Hw.
  destruct (read_word_plain p w r Hp Hw) as [Hread _].
  destruct w as [|c w]; [done|].
  apply andb_true_iff in Hw as [Hc Hw].
  unfold Stream.extract_string, Stream.good.
  cbn [Stream.buf Stream.eofbit Stream.failbit negb andb].
  rewrite skip_ws_blank.
  change (String c w ++ String " " r)%string with (String c (w ++ String " " r)) in *.
  rewrite (skip_ws_word c _ (Hp _ Hc)), Hread. done.
Qed.

(** [iss >> n] on a good stream whose buffer is a blank and a numeral,
    followed by a blank or by the end of the buffer. *)
Lemma extract_int_numeral d r old :
  numeral d →
  Stream.extract_int (Stream.mk (String " " (d ++ String " " r)) false false) old
  = (Stream.mk (String " " r) false false, Stream.decimal_value d)
  ∧ Stream.extract_int (Stream.mk (String " " d) false false) old
    = (Stream.mk EmptyString true false, Stream.decimal_value d).
Proof.
  intros Hnum. destruct (numeral_fits d Hnum) as [Hmax Hmin].
  destruct Hnum as (Hne & Hd & _).
  destruct (read_digits_numeral d r Hd) as [Hread1 Hread2].
  destruct d as [|c d]; [done|].
  pose proof Hd as [Hc _]%andb_true_iff.
  pose proof (digit_cases c Hc) as (Hsp & _ & Hmi & Hpl & _).
  unfold Stream.extract_int, Stream.good.
  cbn [Stream.buf Stream.eofbit Stream.failbit negb andb].
  rewrite !skip_ws_blank.
  change (String c d ++ String " " r)%string with (String c (d ++ String " " r)) in *.
  rewrite !(skip_ws_word c _ Hsp), Hmi, Hpl, Hread1, Hread2, Hmax, Hmin.
  done.
Qed.

(** [iss >> n] after the end of the buffer was reached. *)
Lemma extract_int_eof s old :
  Stream.extract_int (Stream.mk s true false) old = (Stream.mk s true true, old).
Proof. reflexivity. Qed.

(** ** The parser of ranges *)

Section ParseRange.
Variable contigs : gmap string contig_t.
Variable item : blacklist_item_t.
Variables (name : string) (contig : contig_t).
Hypothesis name_plain : plain_name name.
Hypothesis name_known : contigs !! name = Some contig.

Lemma name_unchanged a b :
  (∀ c, plain_char c = true → Ascii.eqb c a = false) → replace a b name = name.
Proof. intros H. apply (replace_all_chars plain_char); [done|apply name_plain]. Qed.

Lemma numeral_unchanged a b d :
  (∀ c, Stream.isdigit c = true → Ascii.eqb c a = false) →
  numeral d → replace a b d = d.
Proof. intros H Hd. apply (replace_all_chars Stream.isdigit); [done|apply Hd]. Qed.

Lemma numeral_no_minus d : numeral d → contains "-" d = false.
Proof.
  intros Hd. apply (contains_all_chars Stream.isdigit); [|apply Hd].
  apply digit_not_minus.
Qed.

Lemma name_no_minus : contains "-" name = false.
Proof.
  apply (contains_all_chars plain_char); [|apply name_plain].
  apply plain_not_minus.
Qed.

Ltac reduce := cbv beta iota zeta.


(** The token [name:s-e]. *)
Lemma parse_range_range s e :
  unsigned_name name → numeral s → numeral e →
  parse_range (name ++ String ":" (s ++ String "-" e)) contigs item
  = (true,
     parsed_range item None contig
       (Stream.decimal_value s - 1) (Stream.decimal_value e - 1),
     []).
Proof.
  intros [_ Hplus] Hs He. unfold parse_range. reduce.
  rewrite !replace_app. cbn [replace]. rewrite !replace_app. cbn [replace].
  rewrite !Ascii.eqb_refl.
  replace (Ascii.eqb "-" ":") with false by reflexivity.
  replace (Ascii.eqb " " "-") with false by reflexivity.
  rewrite !(name_unchanged ":" " " plain_not_colon).
  rewrite !(name_unchanged "-" " " plain_not_minus).
  rewrite !(numeral_unchanged ":" " " s digit_not_colon Hs).
  rewrite !(numeral_unchanged ":" " " e digit_not_colon He).
  rewrite !(numeral_unchanged "-" " " s digit_not_minus Hs).
  rewrite !(numeral_unchanged "-" " " e digit_not_minus He).
  unfold Stream.str, Stream.init. cbn [Stream.eofbit Stream.failbit].
  pose proof name_plain as [Hne Hall].
  rewrite (proj1 (extract_string_word plain_char name _ "" plain_not_space Hne Hall)).
  reduce. cbn [Stream.eofbit Stream.failbit].
  rewrite contains_app, name_no_minus. cbn [contains orb].
  rewrite contains_app. cbn [contains].
  rewrite Ascii.eqb_refl, orb_true_r. cbn [orb].
  pose proof name_known as Hknown.
  pose proof (proj1 (extract_string_word plain_char name (s ++ String " " e)
                       name plain_not_space Hne Hall)) as Hagain.
  destruct name as [|c0 rest] eqn:Hname; [done|].
  assert (Hc0 : plain_char c0 = true) by (by apply andb_true_iff in Hall as [? _]).
  replace (Ascii.eqb c0 "+") with false
    by (symmetry; apply Ascii.eqb_neq; intros ->; by apply (Hplus rest)).
  rewrite (plain_not_minus c0 Hc0). reduce.
  rewrite Hknown. rewrite Hagain. reduce.
  rewrite (proj1 (extract_int_numeral s e _ Hs)). reduce.
  cbn [Stream.fail Stream.failbit].
  rewrite (proj2 (extract_int_numeral e "" _ He)). reduce.
  reflexivity.
Qed.

Lemma signed_word c :
  Stream.isspace c = false →
  all_chars (λ c, negb (Stream.isspace c)) (String c name) = true.
Proof.
  intros Hc. cbn [all_chars]. rewrite Hc. cbn [negb andb].
  destruct name_plain as [_ Hall]. clear -Hall.
  induction name as [|c' r IH]; [done|]. cbn [all_chars] in *.
  apply andb_true_iff in Hall as [Hc' Hr].
  by rewrite (plain_not_space c' Hc'), IH.
Qed.

Lemma not_space_spec c : negb (Stream.isspace c) = true → Stream.isspace c = false.
Proof. by intros ?%negb_true_iff. Qed.

(** The token [+name:p]. *)
Lemma parse_range_plus_position p :
  numeral p →
  parse_range (String "+" (name ++ String ":" p)) contigs item
  = (true,
     parsed_range item (Some FORWARD) contig
       (Stream.decimal_value p - 1) (Stream.decimal_value p - 1),
     []).
Proof.
  intros Hp. unfold parse_range. reduce.
  cbn [replace]. replace (Ascii.eqb "+" ":") with false by reflexivity.
  rewrite replace_app. cbn [replace]. rewrite Ascii.eqb_refl.
  rewrite (name_unchanged ":" " " plain_not_colon).
  rewrite (numeral_unchanged ":" " " p digit_not_colon Hp).
  unfold Stream.str, Stream.init. cbn [Stream.eofbit Stream.failbit].
  change (String "+" (name ++ String " " p))%string
    with (String "+" name ++ String " " p)%string.
  rewrite (proj1 (extract_string_word _ (String "+" name) p "" not_space_spec
                    ltac:(done) (signed_word "+" eq_refl))).
  change (String "+" name ++ String " " p)%string
    with (String "+" (name ++ String " " p))%string.
  reduce. rewrite Ascii.eqb_refl. reduce.
  rewrite name_known.
  cbn [contains]. replace (Ascii.eqb "+" "-") with false by reflexivity.
  rewrite contains_app, name_no_minus. cbn [contains orb].
  rewrite (numeral_no_minus p Hp).
  replace (Ascii.eqb " " "-") with false by reflexivity.
  cbn [orb].
  rewrite (proj2 (extract_int_numeral p "" _ Hp)). reduce.
  reflexivity.
Qed.

(** The token [-name:p]: the strand prefix is taken for the separator of a
    range, and the end of the range is missing. *)
Lemma parse_range_minus_position p :
  numeral p →
  parse_range (String "-" (name ++ String ":" p)) contigs item
  = (false,
     Item.mk (Item.type item) true REVERSE contig (Stream.decimal_value p)
       (Item.end_ item) (Item.gene item),
     [warning (String " " (name ++ String " " p))]).
Proof.
  intros Hp. unfold parse_range. reduce.
  cbn [replace]. replace (Ascii.eqb "-" ":") with false by reflexivity.
  rewrite !replace_app. cbn [replace]. rewrite !Ascii.eqb_refl.
  replace (Ascii.eqb " " "-") with false by reflexivity.
  rewrite !(name_unchanged ":" " " plain_not_colon).
  rewrite !(name_unchanged "-" " " plain_not_minus).
  rewrite !(numeral_unchanged ":" " " p digit_not_colon Hp).
  rewrite !(numeral_unchanged "-" " " p digit_not_minus Hp).
  unfold Stream.str, Stream.init. cbn [Stream.eofbit Stream.failbit].
  change (String "-" (name ++ String " " p))%string
    with (String "-" name ++ String " " p)%string.
  rewrite (proj1 (extract_string_word _ (String "-" name) p "" not_space_spec
                    ltac:(done) (signed_word "-" eq_refl))).
  change (String "-" name ++ String " " p)%string
    with (String "-" (name ++ String " " p))%string.
  reduce. replace (Ascii.eqb "-" "+") with false by reflexivity.
  rewrite Ascii.eqb_refl. reduce.
  rewrite name_known.
  cbn [contains]. rewrite Ascii.eqb_refl. cbn [orb].
  cbn [Stream.eofbit Stream.failbit].
  pose proof name_plain as [Hne Hall].
  rewrite (proj2 (extract_string_word plain_char name p _ plain_not_space Hne Hall)).
  reduce.
  rewrite (proj2 (extract_int_numeral p "" _ Hp)). reduce.
  cbn [Stream.fail Stream.failbit].
  rewrite extract_int_eof. reduce.
  reflexivity.
Qed.

End ParseRange.

(** ** Tokens of a rule *)

(** A token that starts with a strand prefix is none of the keywords. *)
Ltac not_a_keyword :=
  repeat match goal with
    | |- context [String.eqb (String ?c ?s) ?k] =>
        change (String.eqb (String c s) k) with false
    end;
  rewrite ?andb_false_r.

Lemma sample_name : plain_name "chr1".
Proof. split; [discriminate | reflexivity]. Qed.

Lemma sample_unsigned_name : unsigned_name "chr1".
Proof. split; [apply sample_name | discriminate]. Qed.

Lemma sample_numeral_100 : numeral "100".
Proof. repeat split; [discriminate | vm_compute; discriminate]. Qed.

Lemma sample_numeral_200 : numeral "200".
Proof. repeat split; [discriminate | vm_compute; discriminate]. Qed.

(** The token [+name:p] gives a POSITION item on the forward strand. *)
Lemma plus_prefixed_position_accepted (contigs : gmap string contig_t)
    (genes : gmap string gene_t) item name contig pos allow_keyword :
  plain_name name → contigs !! name = Some contig → numeral pos →
  genes !! String "+" (name ++ String ":" pos) = None →
  parse_blacklist_item (String "+" (name ++ String ":" pos)) item contigs genes
    allow_keyword
  = (true,
     Item.mk BLACKLIST_POSITION true FORWARD contig
       (Stream.decimal_value pos - 1) (Stream.decimal_value pos - 1) (Item.gene item),
     []).
Proof.
  intros Hname Hknown Hpos Hgene. unfold parse_blacklist_item.
  not_a_keyword. cbv zeta. rewrite Hgene.
  rewrite (parse_range_plus_position contigs item name contig Hname Hknown pos Hpos).
  cbv beta iota. unfold parsed_range. cbn [Item.start Item.end_].
  by rewrite Z.eqb_refl.
Qed.

(** C3. The token [-name:pos], with a known contig and a valid number, is
    rejected: [parse_range] returns false after a warning, and so does
    [parse_blacklist_item] unless the whole token is the name of a gene.  The
    strand was set to REVERSE and the contig was resolved before the
    rejection. *)
Theorem minus_prefixed_position_rejected (contigs : gmap string contig_t)
    (genes : gmap string gene_t) item name contig pos allow_keyword :
  plain_name name → contigs !! name = Some contig → numeral pos →
  let token := String "-" (name ++ String ":" pos) in
  let left_in_item :=
    Item.mk (Item.type item) true REVERSE contig (Stream.decimal_value pos)
      (Item.end_ item) (Item.gene item) in
  let cerr := [warning (String " " (name ++ String " " pos))] in
  parse_range token contigs item = (false, left_in_item, cerr)
  ∧ (genes !! token = None →
     parse_blacklist_item token item contigs genes allow_keyword
     = (false, left_in_item, cerr)).
Proof.
  intros Hname Hknown Hpos token left_in_item cerr.
  pose proof (parse_range_minus_position contigs item name contig Hname Hknown pos Hpos)
    as Hrange.
  split; [exact Hrange|].
  intros Hgene. unfold parse_blacklist_item. subst token.
  not_a_keyword. cbv zeta. rewrite Hgene, Hrange. reflexivity.
Qed.

Lemma minus_prefixed_position_rejected_witness :
  parse_range "-chr1:100" Sample.contigs Sample.uninitialized
  = (false,
     Item.mk BLACKLIST_RANGE true REVERSE Sample.chr1 100 0 (Sample.gene 0 0%N 0 0),
     ["WARNING: unknown gene or malformed range:  chr1 100"])
  ∧ (Sample.genes !! "-chr1:100" = None →
     parse_blacklist_item "-chr1:100" Sample.uninitialized Sample.contigs Sample.genes true
     = (false,
        Item.mk BLACKLIST_RANGE true REVERSE Sample.chr1 100 0 (Sample.gene 0 0%N 0 0),
        ["WARNING: unknown gene or malformed range:  chr1 100"])).
Proof.
  exact (minus_prefixed_position_rejected Sample.contigs Sample.genes
           Sample.uninitialized "chr1" Sample.chr1 "100" true
           sample_name eq_refl sample_numeral_100).
Defined.




(** ** The driver *)

Lemma tag_idempotent f : tag (tag f) = tag f.
Proof. reflexivity. Qed.

Lemma set_filter_same f : Fusion.set_filter (Fusion.filter f) f = f.
Proof. by destruct f. Qed.

Section Driver.
Variable is_read_through : fusion_t → bool.
Variable uninitialized : blacklist_item_t.
Variables (contigs : gmap string contig_t) (genes : gmap string gene_t).
Variables (evalue_cutoff : float) (max_mate_gap : Z).

Abbreviation visit_fusion' := (visit_fusion is_read_through evalue_cutoff max_mate_gap).
Abbreviation visit_key' := (visit_key is_read_through evalue_cutoff max_mate_gap).
Abbreviation process_line' :=
  (process_line is_read_through uninitialized contigs genes evalue_cutoff max_mate_gap).
Abbreviation line_items' := (line_items uninitialized contigs genes).
Abbreviation line_warnings' := (line_warnings uninitialized contigs genes).
Abbreviation line_step' :=
  (line_step is_read_through uninitialized contigs genes evalue_cutoff max_mate_gap).
Abbreviation condemned' :=
  (condemned is_read_through uninitialized contigs genes evalue_cutoff max_mate_gap).
Abbreviation condemns' :=
  (condemns is_read_through uninitialized contigs genes evalue_cutoff max_mate_gap).
Abbreviation invariant' :=
  (invariant is_read_through uninitialized contigs genes evalue_cutoff max_mate_gap).
Abbreviation filter_blacklisted_ranges' :=
  (filter_blacklisted_ranges is_read_through uninitialized contigs genes
     evalue_cutoff max_mate_gap).

(** *** One bucket *)

Section Bucket.
Variables item1 item2 : blacklist_item_t.

Let P (f : fusion_t) : bool :=
  line_matches is_read_through item1 item2 f evalue_cutoff max_mate_gap.

(** What a visit does to a fusion. *)
Let tag_if_matched (f : fusion_t) : fusion_t := if P f then tag f else f.

Lemma visit_fusion_fusions fs b ptr i :
  (visit_fusion' item1 item2 (fs, b) ptr).1 !! i
  = (if decide (i = ptr) then tag_if_matched else id) <$> fs !! i.
Proof.
  unfold visit_fusion. cbn [fst snd].
  destruct (fs !! ptr) as [f|] eqn:Hptr.
  - fold (P f). destruct (P f) eqn:HP; cbn [fst].
    + destruct (decide (i = ptr)) as [->|Hne].
      * rewrite list_lookup_insert_eq by (by eapply lookup_lt_Some).
        rewrite Hptr. cbn. unfold tag_if_matched. by rewrite HP.
      * rewrite list_lookup_insert_ne by done.
        by destruct (fs !! i).
    + destruct (decide (i = ptr)) as [->|Hne].
      * rewrite Hptr. cbn. unfold tag_if_matched. by rewrite HP.
      * by destruct (fs !! i).
  - cbn [fst]. destruct (decide (i = ptr)) as [->|Hne].
    + by rewrite Hptr.
    + by destruct (fs !! i).
Qed.

Lemma visit_fusion_bucket fs b ptr i :
  i ∈ (visit_fusion' item1 item2 (fs, b) ptr).2
  ↔ i ∈ b ∧ ¬ (i = ptr ∧ ∃ f, fs !! i = Some f ∧ P f = true).
Proof.
  unfold visit_fusion. cbn [fst snd].
  destruct (fs !! ptr) as [f|] eqn:Hptr.
  - fold (P f). destruct (P f) eqn:HP; cbn [snd].
    + rewrite elem_of_difference, elem_of_singleton.
      split; intros [Hb Hn]; (split; [done|]).
      * intros [-> _]. done.
      * intros ->. apply Hn. eauto.
    + split; [|by intros [? _]].
      intros Hb. split; [done|]. intros [-> (f' & Hf' & HP')]. congruence.
  - cbn [snd]. split; [|by intros [? _]].
    intros Hb. split; [done|]. intros [-> (f' & Hf' & _)]. congruence.
Qed.

Lemma tag_if_matched_idempotent f : tag_if_matched (tag_if_matched f) = tag_if_matched f.
Proof.
  unfold tag_if_matched. destruct (P f) eqn:HP; [|by rewrite HP].
  by destruct (P (tag f)).
Qed.

Lemma tag_if_matched_matched f :
  P (tag_if_matched f) = true → tag_if_matched f = f ∨ P f = true.
Proof. unfold tag_if_matched. destruct (P f); auto. Qed.

(** The loop over a bucket: every fusion of the list that matches is
    tagged and erased from the bucket, nothing else changes. *)
Lemma visit_fusions_spec ptrs : ∀ fs b,
  let r := foldl (visit_fusion' item1 item2) (fs, b) ptrs in
  (∀ i, r.1 !! i = (if decide (i ∈ ptrs) then tag_if_matched else id) <$> fs !! i)
  ∧ (∀ i, i ∈ r.2 ↔ i ∈ b ∧ ¬ (i ∈ ptrs ∧ ∃ f, fs !! i = Some f ∧ P f = true)).
Proof.
  induction ptrs as [|ptr ptrs IH]; intros fs b; cbv zeta; cbn [foldl].
  - cbn [fst snd]. split; intros i.
    + rewrite decide_False by apply not_elem_of_nil. by destruct (fs !! i).
    + split; [|by intros [? _]]. intros Hb. split; [done|].
      intros [[]%not_elem_of_nil _].
  - destruct (visit_fusion' item1 item2 (fs, b) ptr) as [fs1 b1] eqn:Hvisit.
    pose proof (visit_fusion_fusions fs b ptr) as Hfs1.
    pose proof (visit_fusion_bucket fs b ptr) as Hb1.
    rewrite Hvisit in Hfs1, Hb1. cbn [fst snd] in Hfs1, Hb1.
    destruct (IH fs1 b1) as [IHfs IHb]. split; intros i.
    + rewrite IHfs, Hfs1. destruct (fs !! i) as [f|]; [|done]. cbn.
      f_equal.
      destruct (decide (i = ptr)) as [->|Hne].
      * rewrite (decide_True (P:=ptr ∈ ptr :: ptrs)) by apply list_elem_of_here.
        destruct (decide (ptr ∈ ptrs)); [apply tag_if_matched_idempotent|done].
      * destruct (decide (i ∈ ptrs)) as [Hin|Hnin].
        -- by rewrite decide_True by (by apply list_elem_of_further).
        -- rewrite decide_False; [done|].
           intros [?|?]%elem_of_cons; done.
    + rewrite IHb, Hb1, Hfs1. rewrite elem_of_cons.
      split.
      * intros [[Hb Hn1] Hn2]. split; [done|].
        intros [[->|Hin] (f & Hf & HP)].
        -- apply Hn1. eauto.
        -- destruct (decide (i = ptr)) as [->|Hne]; [apply Hn1; eauto|].
           apply Hn2. split; [done|]. exists f. by rewrite Hf.
      * intros [Hb Hn]. split; [split; [done|]|].
        -- intros [-> ?]. apply Hn. split; [by left|done].
        -- intros [Hin (g & Hg & HPg)].
           destruct (fs !! i) as [f|] eqn:Hf; [|done].
           cbn in Hg. injection Hg as <-.
           destruct (decide (i = ptr)) as [->|Hne].
           ++ destruct (tag_if_matched_matched f HPg) as [Heq|HPf].
              ** apply Hn. split; [by left|]. exists f. split; [done|].
                 by rewrite Heq in HPg.
              ** apply Hn. split; [by left|]. eauto.
           ++ apply Hn. split; [by right|]. eauto.
Qed.
End Bucket.

(** *** One index key *)

Section Key.
Variables item1 item2 : blacklist_item_t.

Let P (f : fusion_t) : bool :=
  line_matches is_read_through item1 item2 f evalue_cutoff max_mate_gap.

(** A visit of a key tags the fusions of its bucket that match, and
    erases from the bucket the fusions it tagged. *)
Lemma visit_key_spec (fs : list fusion_t) (ix : gmap index_key_t (gset nat)) key :
  let r := visit_key' item1 item2 (fs, ix) key in
  length r.1 = length fs
  ∧ (∀ i, r.1 !! i = fs !! i
          ∨ ∃ f, fs !! i = Some f ∧ P f = true ∧ indexed ix key i
                 ∧ r.1 !! i = Some (tag f))
  ∧ (∀ i f, fs !! i = Some f → indexed ix key i → P f = true →
            r.1 !! i = Some (tag f))
  ∧ (∀ key' i, indexed r.2 key' i → indexed ix key' i)
  ∧ (∀ key' i, indexed ix key' i →
               indexed r.2 key' i
               ∨ ∃ f, fs !! i = Some f ∧ r.1 !! i = Some (tag f)).
Proof.
  unfold visit_key. cbn [fst snd].
  destruct (ix !! key) as [s|] eqn:Hkey; cbv zeta.
  - destruct (visit_fusions_spec item1 item2 (elements s) fs s) as [Hfs Hb].
    destruct (foldl (visit_fusion' item1 item2) (fs, s) (elements s))
      as [fs' b'] eqn:Hfold.
    cbn [fst snd] in *. fold P in Hfs, Hb.
    assert (Hlook : ∀ i, fs' !! i = fs !! i
              ∨ ∃ f, fs !! i = Some f ∧ P f = true ∧ i ∈ s
                     ∧ fs' !! i = Some (tag f)).
    { intros i. rewrite Hfs.
      destruct (decide (i ∈ elements s)) as [Hin|Hnin].
      - destruct (fs !! i) as [f|] eqn:Hf; [|by left]. cbn. fold (P f).
        destruct (P f) eqn:HP; [|by left].
        right. exists f. by apply elem_of_elements in Hin.
      - left. by destruct (fs !! i). }
    split; [|split; [|split; [|split]]].
    + apply Nat.le_antisymm.
      * destruct (Nat.le_gt_cases (length fs') (length fs)) as [|Hlt]; [done|].
        destruct (lookup_lt_is_Some_2 fs' (length fs) Hlt) as [g Hg].
        destruct (Hlook (length fs)) as [Heq|(f & Hf & _)].
        -- rewrite Hg in Heq. symmetry in Heq.
           apply lookup_lt_Some in Heq. lia.
        -- apply lookup_lt_Some in Hf. lia.
      * destruct (Nat.le_gt_cases (length fs) (length fs')) as [|Hlt]; [done|].
        destruct (lookup_lt_is_Some_2 fs (length fs') Hlt) as [g Hg].
        destruct (Hlook (length fs')) as [Heq|(f & _ & _ & _ & Hf)].
        -- rewrite Hg in Heq. apply lookup_lt_Some in Heq. lia.
        -- apply lookup_lt_Some in Hf. lia.
    + intros i. destruct (Hlook i) as [?|(f & ? & ? & ? & ?)]; [by left|].
      right. exists f. repeat split; try done. by exists s.
    + intros i f Hf (s' & Hs' & Hin) HP.
      assert (s' = s) as -> by congruence.
      rewrite Hfs, Hf. rewrite decide_True by (by apply elem_of_elements).
      cbn. fold (P f). by rewrite HP.
    + intros key' i (s' & Hs' & Hin).
      destruct (decide (key' = key)) as [->|Hne].
      * rewrite lookup_insert_eq in Hs'. injection Hs' as <-.
        apply Hb in Hin as [Hin _]. by exists s.
      * rewrite lookup_insert_ne in Hs' by done. by exists s'.
    + intros key' i (s' & Hs' & Hin).
      destruct (decide (key' = key)) as [->|Hne].
      * assert (s' = s) as -> by congruence.
        destruct (fs !! i) as [f|] eqn:Hf.
        -- destruct (P f) eqn:HP.
           ++ right. exists f. split; [done|].
              rewrite Hfs, Hf. rewrite decide_True by (by apply elem_of_elements).
              cbn. fold (P f). by rewrite HP.
           ++ left. exists b'. rewrite lookup_insert_eq. split; [done|].
              apply Hb. split; [done|]. intros [_ (g & Hg & HPg)].
              rewrite Hf in Hg. injection Hg as <-. fold (P f) in HPg. congruence.
        -- left. exists b'. rewrite lookup_insert_eq. split; [done|].
           apply Hb. split; [done|]. intros [_ (g & Hg & _)].
           rewrite Hf in Hg. discriminate.
      * left. exists s'. by rewrite lookup_insert_ne.
  - cbn [fst snd]. split; [done|]. split; [by left|]. split.
    + intros i f _ (s & Hs & _). congruence.
    + split; [done|]. intros. by left.
Qed.
End Key.

(** *** The lines of a blacklist *)

Section Run.
Variables (fusions0 : list fusion_t) (blacklist_file : list string).

Abbreviation inv := (invariant' fusions0 blacklist_file).

Lemma visit_key_keeps_tags item1 item2 c key :
  keeps_tags c (visit_key' item1 item2 c key).
Proof.
  destruct c as [fs ix]. intros i f Hf. cbn [fst] in Hf.
  destruct (visit_key_spec item1 item2 fs ix key) as (_ & Hsound & _).
  destruct (Hsound i) as [->|(g & Hg & _ & _ & ->)]; [done|].
  rewrite Hf in Hg. by injection Hg as <-.
Qed.

Section OneLine.
Variables (line : string) (item1 item2 : blacklist_item_t).
Hypothesis line_in_file : line ∈ blacklist_file.
Hypothesis line_parsed : line_items' line = Some (item1, item2).

Let P (f : fusion_t) : bool :=
  line_matches is_read_through item1 item2 f evalue_cutoff max_mate_gap.

Lemma visit_key_invariant c key :
  key ∈ line_index_keys max_mate_gap item1 item2 →
  inv c → inv (visit_key' item1 item2 c key).
Proof.
  destruct c as [fs ix]. intros Hkey (I1 & I2 & I3 & I4).
  destruct (visit_key_spec item1 item2 fs ix key)
    as (Hlen & Hsound & Hhit & Hshrink & Herase).
  pose proof (visit_key_keeps_tags item1 item2 (fs, ix) key) as Hkeep.
  cbn [fst snd] in *.
  split; [congruence|]. split; [|split].
  - intros i f0 Hf0.
    destruct (Hsound i) as [Heq|(f & Hf & HP & Hidx & Hr)].
    { rewrite Heq. by apply I2. }
    destruct (I2 i f0 Hf0) as [Hcur|[Hcur Hc]].
    + assert (f = f0) as -> by congruence.
      right. split; [done|].
      destruct (I3 key i Hidx) as (f0' & Hf0' & Hel & Hk).
      assert (f0' = f0) as -> by congruence.
      split; [done|]. exists line. split; [done|].
      by exists item1, item2, key.
    + assert (f = tag f0) as -> by congruence.
      right. by rewrite Hr.
  - intros key' i Hidx. by apply I3, Hshrink.
  - intros key' i f0 Hf0 Hel Hk.
    destruct (I4 key' i f0 Hf0 Hel Hk) as [Hidx|Htag].
    + destruct (Herase key' i Hidx) as [?|(f & Hf & Hr)]; [by left|].
      right. destruct (I2 i f0 Hf0) as [Hcur|[Hcur _]].
      * assert (f = f0) as -> by congruence. done.
      * assert (f = tag f0) as -> by congruence. done.
    + right. by apply Hkeep.
Qed.

Lemma visit_key_hit c key i f0 :
  inv c → fusions0 !! i = Some f0 → eligible f0 = true →
  key ∈ fusion_index_keys f0 → P f0 = true →
  (visit_key' item1 item2 c key).1 !! i = Some (tag f0).
Proof.
  destruct c as [fs ix]. intros (I1 & I2 & I3 & I4) Hf0 Hel Hk HP.
  destruct (visit_key_spec item1 item2 fs ix key) as (_ & _ & Hhit & _).
  pose proof (visit_key_keeps_tags item1 item2 (fs, ix) key) as Hkeep.
  cbn [fst snd] in *.
  destruct (I4 key i f0 Hf0 Hel Hk) as [Hidx|Htag]; [|by apply Hkeep].
  destruct (I2 i f0 Hf0) as [Hcur|[Hcur _]]; [|by apply Hkeep].
  by apply Hhit.
Qed.

Lemma visit_keys_facts keys : ∀ c,
  (∀ key, key ∈ keys → key ∈ line_index_keys max_mate_gap item1 item2) →
  inv c →
  let r := foldl (visit_key' item1 item2) c keys in
  inv r ∧ keeps_tags c r
  ∧ (∀ key i f0, key ∈ keys → fusions0 !! i = Some f0 → eligible f0 = true →
       key ∈ fusion_index_keys f0 → P f0 = true →
       r.1 !! i = Some (tag f0)).
Proof.
  induction keys as [|key keys IH]; intros c Hkeys Hinv; cbv zeta; cbn [foldl].
  - split; [done|]. split; [by intros ???|].
    intros ? ? ? []%not_elem_of_nil.
  - assert (Hinv1 : inv (visit_key' item1 item2 c key))
      by (apply visit_key_invariant; [apply Hkeys; by left|done]).
    destruct (IH (visit_key' item1 item2 c key)) as (Hinv' & Hkeep & Hhit);
      [intros; apply Hkeys; by right|done|].
    split; [done|]. split.
    + intros i f Hf. by apply Hkeep, visit_key_keeps_tags.
    + intros key' i f0 [->|Hin]%elem_of_cons Hf0 Hel Hk HP.
      * by apply Hkeep, visit_key_hit.
      * by apply (Hhit key').
Qed.
End OneLine.

Lemma line_step_facts line c :
  line ∈ blacklist_file → inv c →
  let r := line_step' c line in
  inv r ∧ keeps_tags c r
  ∧ (∀ i f0, condemns' line f0 → fusions0 !! i = Some f0 → eligible f0 = true →
       r.1 !! i = Some (tag f0)).
Proof.
  intros Hline Hinv. cbv zeta. unfold line_step.
  destruct (line_items' line) as [[item1 item2]|] eqn:Hitems.
  - destruct (visit_keys_facts line item1 item2 Hline Hitems
                (line_index_keys max_mate_gap item1 item2) c)
      as (Hinv' & Hkeep & Hhit); [done|done|].
    split; [done|]. split; [done|].
    intros i f0 (item1' & item2' & key & Hitems' & HP & Hk & Hkf) Hf0 Hel.
    rewrite Hitems in Hitems'. injection Hitems' as <- <-.
    by apply (Hhit key).
  - split; [done|]. split; [by intros ???|].
    intros i f0 (item1' & item2' & key & Hitems' & _). congruence.
Qed.

Lemma lines_facts lines : ∀ c,
  (∀ line, line ∈ lines → line ∈ blacklist_file) →
  inv c →
  let r := foldl line_step' c lines in
  inv r ∧ keeps_tags c r
  ∧ (∀ line i f0, line ∈ lines → condemns' line f0 → fusions0 !! i = Some f0 →
       eligible f0 = true → r.1 !! i = Some (tag f0)).
Proof.
  induction lines as [|line lines IH]; intros c Hlines Hinv; cbv zeta; cbn [foldl].
  - split; [done|]. split; [by intros ???|].
    intros ? ? ? []%not_elem_of_nil.
  - destruct (line_step_facts line c) as (Hinv1 & Hkeep1 & Hhit1);
      [apply Hlines; by left|done|].
    destruct (IH (line_step' c line)) as (Hinv' & Hkeep & Hhit);
      [intros; apply Hlines; by right|done|].
    split; [done|]. split.
    + intros i f Hf. by apply Hkeep, Hkeep1.
    + intros line' i f0 [->|Hin]%elem_of_cons Hc Hf0 Hel.
      * by apply Hkeep, Hhit1.
      * by apply (Hhit line').
Qed.
End Run.

(** *** The body of the loop over the lines *)

Lemma process_line_core st line :
  core (process_line' st line) = line_step' (core st) line.
Proof.
  unfold process_line, line_step, line_items, line_tokens, core.
  destruct (is_comment line); [done|].
  destruct (Stream.extract_string (Stream.init line) "") as [iss1 range1].
  destruct (Stream.extract_string iss1 "") as [iss2 range2]. cbn [fst snd].
  destruct (parse_blacklist_item range1 uninitialized contigs genes false)
    as [[[] item1] cerr1]; cbn [negb]; [|done].
  destruct (parse_blacklist_item range2 uninitialized contigs genes true)
    as [[[] item2] cerr2]; cbn [negb]; [|done].
  by destruct (foldl _ _ _).
Qed.

Lemma process_line_cerr st line :
  State.cerr (process_line' st line) = State.cerr st ++ line_warnings' line.
Proof.
  unfold process_line, line_warnings, line_tokens.
  destruct (is_comment line); [by rewrite app_nil_r|].
  destruct (Stream.extract_string (Stream.init line) "") as [iss1 range1].
  destruct (Stream.extract_string iss1 "") as [iss2 range2]. cbn [fst snd].
  destruct (parse_blacklist_item range1 uninitialized contigs genes false)
    as [[[] item1] cerr1]; cbn [negb]; [|done].
  destruct (parse_blacklist_item range2 uninitialized contigs genes true)
    as [[[] item2] cerr2]; cbn [negb snd]; [|done].
  by destruct (foldl _ _ _).
Qed.

Lemma process_lines_core lines : ∀ st,
  core (foldl process_line' st lines) = foldl line_step' (core st) lines.
Proof.
  induction lines as [|line lines IH]; intros st; cbn [foldl]; [done|].
  by rewrite IH, process_line_core.
Qed.

Lemma process_lines_cerr lines : ∀ st,
  State.cerr (foldl process_line' st lines)
  = State.cerr st ++ concat (line_warnings' <$> lines).
Proof.
  induction lines as [|line lines IH]; intros st; cbn [foldl fmap list_fmap concat].
  - by rewrite app_nil_r.
  - by rewrite IH, process_line_cerr, app_assoc.
Qed.

(** *** The index at the start *)

Lemma indexed_insert (ptr : nat) (ix : gmap index_key_t (gset nat)) key' key i :
  indexed (index_insert ptr ix key') key i
  ↔ indexed ix key i ∨ (key = key' ∧ i = ptr).
Proof.
  unfold indexed, index_insert.
  destruct (decide (key = key')) as [->|Hne].
  - rewrite lookup_insert_eq. split.
    + intros (b & [= <-] & Hin). apply elem_of_union in Hin as [Hin|Hin].
      * right. split; [done|]. by apply elem_of_singleton in Hin.
      * left. destruct (ix !! key') as [b|]; [by exists b|].
        by apply not_elem_of_empty in Hin.
    + intros [(b & Hb & Hin)|[_ ->]]; eexists; (split; [done|]).
      * rewrite Hb. apply elem_of_union. by right.
      * apply elem_of_union. left. by apply elem_of_singleton.
  - rewrite lookup_insert_ne by done. split; [by left|].
    intros [?|[? _]]; done.
Qed.

Lemma indexed_inserts (ptr : nat) (keys : list index_key_t) :
  ∀ (ix : gmap index_key_t (gset nat)) key i,
  indexed (foldl (index_insert ptr) ix keys) key i
  ↔ indexed ix key i ∨ (key ∈ keys ∧ i = ptr).
Proof.
  induction keys as [|key' keys IH]; intros ix key i; cbn [foldl].
  - split; [by left|]. by intros [?|[[]%not_elem_of_nil _]].
  - rewrite IH, indexed_insert, elem_of_cons. tauto.
Qed.

Lemma index_fusion_eligible (ix : gmap index_key_t (gset nat)) ptr f :
  index_fusion ix ptr f
  = if eligible f then foldl (index_insert ptr) ix (fusion_index_keys f) else ix.
Proof.
  unfold index_fusion, eligible, fusion_index_keys.
  destruct (filter_is_null (Fusion.filter f)); cbn [negb andb orb]; [done|].
  destruct (Z.ltb_spec (Fusion.closest_genomic_breakpoint1 f) 0);
    destruct (Z.leb_spec 0 (Fusion.closest_genomic_breakpoint1 f)); done || lia.
Qed.

Lemma indexed_build_from (fusions : list fusion_t) :
  ∀ (ptr : nat) (ix : gmap index_key_t (gset nat)) key i,
  indexed (build_index_from ptr fusions ix) key i
  ↔ indexed ix key i
    ∨ ∃ f, (ptr ≤ i)%nat ∧ fusions !! (i - ptr)%nat = Some f
           ∧ eligible f = true ∧ key ∈ fusion_index_keys f.
Proof.
  induction fusions as [|f fusions IH]; intros ptr ix key i; cbn [build_index_from].
  - split; [by left|]. by intros [?|(? & _ & ? & _)].
  - rewrite IH, index_fusion_eligible. split.
    + intros [Hidx|(g & Hle & Hg & Hel & Hk)].
      * destruct (eligible f) eqn:Hel; [|by left].
        apply indexed_inserts in Hidx as [?|[Hk ->]]; [by left|].
        right. exists f. by rewrite Nat.sub_diag.
      * right. exists g. split; [lia|]. split; [|done].
        by replace (i - ptr)%nat with (S (i - S ptr)) by lia.
    + intros [Hidx|(g & Hle & Hg & Hel & Hk)].
      * left. destruct (eligible f); [|done]. apply indexed_inserts. by left.
      * destruct (decide (i = ptr)) as [->|Hne].
        -- rewrite Nat.sub_diag in Hg. injection Hg as <-.
           left. rewrite Hel. apply indexed_inserts. by right.
        -- right. exists g. split; [lia|]. split; [|done].
           by replace (i - ptr)%nat with (S (i - S ptr)) in Hg by lia.
Qed.

(** The index holds the eligible fusions, each under its own keys. *)
Lemma indexed_build fusions key i :
  indexed (build_index fusions) key i
  ↔ ∃ f, fusions !! i = Some f ∧ eligible f = true ∧ key ∈ fusion_index_keys f.
Proof.
  unfold build_index. rewrite indexed_build_from. rewrite Nat.sub_0_r. split.
  - intros [(b & Hb & _)|(f & _ & ?)]; [|by exists f].
    by rewrite lookup_empty in Hb.
  - intros (f & ?). right. exists f. split; [lia|done].
Qed.

Lemma invariant_at_start fusions blacklist_file :
  invariant' fusions blacklist_file (fusions, build_index fusions).
Proof.
  split; [done|]. split; [by left|]. split.
  - intros key i. apply indexed_build.
  - intros key i f0 Hf0 Hel Hk. left. apply indexed_build. by exists f0.
Qed.

(** *** A run of the filter *)

Lemma run_fusions fusions blacklist_file :
  State.fusions (filter_blacklisted_ranges' fusions blacklist_file).1
  = (foldl line_step' (fusions, build_index fusions) blacklist_file).1.
Proof.
  unfold filter_blacklisted_ranges. cbn [fst].
  change (State.fusions ?st) with (core st).1.
  by rewrite process_lines_core.
Qed.

(** A run tags the fusions that the blacklist condemns, and only them. *)
Lemma run_facts fusions blacklist_file :
  let final := State.fusions (filter_blacklisted_ranges' fusions blacklist_file).1 in
  length final = length fusions
  ∧ (∀ i f0, fusions !! i = Some f0 →
       final !! i = Some f0
       ∨ (final !! i = Some (tag f0) ∧ condemned' blacklist_file f0))
  ∧ (∀ i f0, fusions !! i = Some f0 → condemned' blacklist_file f0 →
       final !! i = Some (tag f0)).
Proof.
  cbv zeta. rewrite run_fusions.
  destruct (lines_facts fusions blacklist_file blacklist_file
              (fusions, build_index fusions))
    as ((Hlen & Htag & _) & _ & Hhit); [done|apply invariant_at_start|].
  split; [done|]. split; [done|].
  intros i f0 Hf0 (Hel & line & Hline & Hc). by apply (Hhit line).
Qed.

End Driver.

(** ** Rejected tokens *)

Lemma parse_range_failure_warns range (contigs : gmap string contig_t) item :
  (parse_range range contigs item).1.1 = false →
  (parse_range range contigs item).2 = [warning (replace ":" " " range)]
  ∨ (parse_range range contigs item).2
    = [warning (replace "-" " " (replace ":" " " range))].
Proof.
  unfold parse_range. cbv zeta.
  repeat case_match; cbn [fst snd]; intros; try discriminate; auto.
Qed.

Lemma word_char_not_space c : word_char c = true → Stream.isspace c = false.
Proof. unfold word_char. by intros [?%negb_true_iff _]%andb_true_iff. Qed.

Lemma word_char_not_colon c : word_char c = true → Ascii.eqb c ":" = false.
Proof. unfold word_char. by intros [_ ?%negb_true_iff]%andb_true_iff. Qed.

(** A single word without a colon is no range: once the word is read as the
    name of the contig the stream is at its end, and no number follows. *)
Lemma parse_range_single_word word (contigs : gmap string contig_t) item :
  all_chars word_char word = true →
  (parse_range word contigs item).1.1 = false.
Proof.
  intros Hword. unfold parse_range. cbv zeta.
  rewrite (replace_all_chars word_char ":" " " word_char_not_colon word Hword).
  unfold Stream.str, Stream.init. cbn [Stream.eofbit Stream.failbit].
  destruct word as [|c0 rest]; [done|].
  assert (Hextract : Stream.extract_string (Stream.mk (String c0 rest) false false) ""
                     = (Stream.mk "" true false, String c0 rest)).
  { pose proof Hword as [Hc0 _]%andb_true_iff.
    unfold Stream.extract_string, Stream.good.
    cbn [Stream.buf Stream.eofbit Stream.failbit negb andb].
    rewrite (skip_ws_word c0 rest (word_char_not_space c0 Hc0)).
    by rewrite (proj2 (read_word_plain word_char (String c0 rest) ""
                         word_char_not_space Hword)). }
  rewrite Hextract. cbv beta iota.
  destruct (Ascii.eqb c0 "+"), (Ascii.eqb c0 "-"); cbv beta iota;
    (destruct (contigs !! _); [|done]);
    destruct (contains "-" _); reflexivity.
Qed.

(** A keyword in the place of the first token does not resolve, unless it
    is the name of a gene. *)
Lemma keyword_first_token_rejected keyword item (contigs : gmap string contig_t)
    (genes : gmap string gene_t) :
  keyword ∈ keywords → genes !! keyword = None →
  (parse_blacklist_item keyword item contigs genes false).1.1 = false.
Proof.
  intros Hin Hgene.
  assert (Hword : all_chars word_char keyword = true).
  { unfold keywords in Hin.
    repeat (apply elem_of_cons in Hin as [->|Hin]; [reflexivity|]).
    by apply elem_of_nil in Hin. }
  pose proof (parse_range_single_word keyword contigs item Hword) as Hrange.
  unfold parse_blacklist_item. cbv zeta. cbn [andb]. rewrite Hgene.
  by destruct (parse_range keyword contigs item) as [[[] ?] ?].
Qed.

Lemma parse_blacklist_item_failure_warns text item (contigs : gmap string contig_t)
    (genes : gmap string gene_t) allow_keyword :
  (parse_blacklist_item text item contigs genes allow_keyword).1.1 = false →
  (parse_blacklist_item text item contigs genes allow_keyword).2 ≠ [].
Proof.
  unfold parse_blacklist_item. cbv zeta.
  repeat (case_match; cbn [fst snd]; try discriminate).
  all: intros _.
  all: match goal with
       | H : parse_range ?r ?c ?i = (false, _, ?w) |- ?w ≠ [] =>
           let Hw := fresh in
           destruct (parse_range_failure_warns r c i) as [Hw|Hw];
           [by rewrite H | rewrite H in Hw; cbn in Hw; by subst
            | rewrite H in Hw; cbn in Hw; by subst]
       end.
Qed.

(** ** The filter as a whole *)

Lemma state_eq (a b : state) :
  core a = core b → State.cerr a = State.cerr b → a = b.
Proof. destruct a, b. unfold core. cbn. by intros [= -> ->] ->. Qed.

Section Claims.
Variable is_read_through : fusion_t → bool.
Variable uninitialized : blacklist_item_t.
Variables (contigs : gmap string contig_t) (genes : gmap string gene_t).
Variables (evalue_cutoff : float) (max_mate_gap : Z).

Abbreviation run :=
  (filter_blacklisted_ranges is_read_through uninitialized contigs genes
     evalue_cutoff max_mate_gap).
Abbreviation step :=
  (process_line is_read_through uninitialized contigs genes evalue_cutoff max_mate_gap).
Abbreviation items := (line_items uninitialized contigs genes).
Abbreviation warnings := (line_warnings uninitialized contigs genes).
Abbreviation condemns_ :=
  (condemns is_read_through uninitialized contigs genes evalue_cutoff max_mate_gap).

(** C9. The filter creates and deletes no fusion, and a fusion leaves
    the filter with every field but the filter tag as it was; the tag is
    as it was or is the "blacklist" tag. *)
Theorem filter_writes_only_the_tag (fusions : list fusion_t) blacklist_file :
  Forall2
    (λ before after,
       after = Fusion.set_filter (Fusion.filter after) before
       ∧ (Fusion.filter after = Fusion.filter before
          ∨ Fusion.filter after = FILTERS_blacklist))
    fusions (State.fusions (run fusions blacklist_file).1).
Proof.
  destruct (run_facts is_read_through uninitialized contigs genes evalue_cutoff
              max_mate_gap fusions blacklist_file) as (Hlen & Htag & _).
  apply Forall2_same_length_lookup. split; [done|].
  intros i before after Hbefore Hafter.
  destruct (Htag i before Hbefore) as [Heq|[Heq _]];
    rewrite Heq in Hafter; injection Hafter as <-.
  - split; [by rewrite set_filter_same | by left].
  - split; [done | by right].
Qed.

(** C6. A second run of the filter on the fusions that the first run
    left, with the same blacklist, catalogs and parameters, returns the
    same count and leaves every fusion as the first run left it. *)
Theorem filter_twice (fusions : list fusion_t) blacklist_file :
  let first := run fusions blacklist_file in
  let second := run (State.fusions first.1) blacklist_file in
  second.2 = first.2 ∧ State.fusions second.1 = State.fusions first.1.
Proof.
  cbv zeta.
  destruct (run_facts is_read_through uninitialized contigs genes evalue_cutoff
              max_mate_gap fusions blacklist_file) as (Hlen1 & Htag1 & Hhit1).
  destruct (run_facts is_read_through uninitialized contigs genes evalue_cutoff
              max_mate_gap (State.fusions (run fusions blacklist_file).1)
              blacklist_file) as (Hlen2 & Htag2 & _).
  set (first := State.fusions (run fusions blacklist_file).1) in *.
  set (second := State.fusions (run first blacklist_file).1) in *.
  assert (Hsame : second = first).
  { apply list_eq. intros i.
    destruct (first !! i) as [f1|] eqn:Hf1.
    - destruct (Htag2 i f1 Hf1) as [?|[Hsecond Hcondemned]]; [done|].
      rewrite Hsecond. f_equal.
      destruct (lookup_lt_is_Some_2 fusions i) as [f0 Hf0].
      { rewrite <- Hlen1. by eapply lookup_lt_Some. }
      destruct (Htag1 i f0 Hf0) as [Hfirst|[Hfirst _]].
      + assert (f1 = f0) as -> by congruence.
        rewrite (Hhit1 i f0 Hf0 Hcondemned) in Hf1. by injection Hf1 as <-.
      + assert (f1 = tag f0) as -> by congruence. done.
    - apply lookup_ge_None. rewrite Hlen2. by apply lookup_ge_None. }
  split; [|done].
  unfold filter_blacklisted_ranges. cbn [snd].
  change (State.fusions (foldl step ?st ?l))
    with (State.fusions (run first blacklist_file).1) at 1.
  fold second. by rewrite Hsame.
Qed.

(** C7. A line that is not a comment and of which a token does not
    resolve sends a warning to [cerr] and changes nothing else: the
    fusions and the index are as before the line, the lines that follow
    are processed from there, and the fusions and the count that the
    filter returns are those of the blacklist without that line. *)
Theorem malformed_line_is_skipped (st : state) line rest
    (fusions : list fusion_t) before after :
  is_comment line = false →
  (parse_blacklist_item (line_tokens line).1 uninitialized contigs genes false).1.1
    = false
  ∨ (parse_blacklist_item (line_tokens line).2 uninitialized contigs genes true).1.1
    = false →
  let skipped :=
    State.mk (State.fusions st) (State.fusions_by_coordinate st)
      (State.cerr st ++ warnings line) in
  warnings line ≠ []
  ∧ step st line = skipped
  ∧ foldl step st (line :: rest) = foldl step skipped rest
  ∧ State.fusions (run fusions (before ++ line :: after)).1
    = State.fusions (run fusions (before ++ after)).1
  ∧ (run fusions (before ++ line :: after)).2 = (run fusions (before ++ after)).2.
Proof.
  intros Hcomment Hfail skipped.
  assert (Hitems : items line = None).
  { unfold line_items. rewrite Hcomment.
    destruct (parse_blacklist_item (line_tokens line).1 _ _ _ _) as [[[] ?] ?]; [|done].
    destruct (parse_blacklist_item (line_tokens line).2 _ _ _ _) as [[[] ?] ?]; [|done].
    by destruct Hfail. }
  assert (Hwarn : warnings line ≠ []).
  { unfold line_warnings. rewrite Hcomment.
    pose proof (parse_blacklist_item_failure_warns (line_tokens line).1
                  uninitialized contigs genes false) as H1.
    pose proof (parse_blacklist_item_failure_warns (line_tokens line).2
                  uninitialized contigs genes true) as H2.
    destruct (parse_blacklist_item (line_tokens line).1 _ _ _ _) as [[[] ?] w1];
      cbn [fst snd] in *; [|by apply H1].
    destruct Hfail as [?|Hfail]; [done|].
    intros [_ Hnil]%app_eq_nil. by apply H2. }
  assert (Hstep : step st line = skipped).
  { apply state_eq.
    - rewrite process_line_core. unfold line_step. by rewrite Hitems.
    - by rewrite process_line_cerr. }
  assert (Hrun : State.fusions (run fusions (before ++ line :: after)).1
                 = State.fusions (run fusions (before ++ after)).1).
  { rewrite !run_fusions, !foldl_app. cbn [foldl].
    unfold line_step at 2. by rewrite Hitems. }
  split; [done|]. split; [done|]. split; [by cbn [foldl]; rewrite Hstep|].
  split; [done|].
  unfold filter_blacklisted_ranges in *. cbn [fst snd] in *. by rewrite Hrun.
Qed.


End Claims.

Lemma malformed_line_is_skipped_witness :
  is_comment "chrX:5 any" = false
  ∧ (parse_blacklist_item (line_tokens "chrX:5 any").1 Sample.uninitialized
       Sample.contigs Sample.genes false).1.1 = false
  ∧ line_warnings Sample.uninitialized Sample.contigs Sample.genes "chrX:5 any" ≠ []
  ∧ State.fusions (Sample.run [Sample.recoverable] ["chrX:5 any"; "chr1:1001 any"]).1
    = State.fusions (Sample.run [Sample.recoverable] ["chr1:1001 any"]).1.
Proof.
  assert (Hfail : (parse_blacklist_item (line_tokens "chrX:5 any").1
                     Sample.uninitialized Sample.contigs Sample.genes false).1.1
                  = false) by (vm_compute; reflexivity).
  split; [reflexivity|]. split; [exact Hfail|].
  destruct (malformed_line_is_skipped Sample.is_read_through Sample.uninitialized
              Sample.contigs Sample.genes Sample.zero 0
              (State.mk [] ∅ []) "chrX:5 any" [] [Sample.recoverable] []
              ["chr1:1001 any"] eq_refl (or_introl Hfail))
    as (Hwarn & _ & _ & Hrun & _).
  split; [exact Hwarn | exact Hrun].
Defined.




(** * Further properties of the parser *)

(** X1. As the second token of a line each keyword resolves to the item
    type of its name, without a warning, whatever the catalogs hold: a gene or
    a contig of that name is never looked up.  Only the type of the item is
    written. *)
Theorem keywords_resolve_first item (contigs : gmap string contig_t)
    (genes : gmap string gene_t) :
  keyword_types.*1 = keywords
  ∧ Forall
      (λ kt, parse_blacklist_item kt.1 item contigs genes true
             = (true, Item.set_type kt.2 item, []))
      keyword_types.
Proof. split; [reflexivity|]. repeat constructor. Qed.

Lemma parse_range_cerr range (contigs : gmap string contig_t) item :
  length (parse_range range contigs item).2
  = if (parse_range range contigs item).1.1 then 0%nat else 1%nat.
Proof.
  unfold parse_range. cbv zeta.
  repeat case_match; cbn [fst snd length] in *; congruence.
Qed.

Lemma parse_range_succeeds_silently range (contigs : gmap string contig_t) item parsed cerr :
  parse_range range contigs item = (true, parsed, cerr) → cerr = [].
Proof.
  intros H. pose proof (parse_range_cerr range contigs item) as Hlen.
  rewrite H in Hlen. cbn in Hlen. by destruct cerr.
Qed.

(** What a successful parse of a token leaves in the item. *)
Lemma parse_blacklist_item_success text item (contigs : gmap string contig_t)
    (genes : gmap string gene_t) allow_keyword parsed cerr :
  parse_blacklist_item text item contigs genes allow_keyword = (true, parsed, cerr) →
  cerr = []
  ∧ (allow_keyword = false → has_coordinates parsed = true)
  ∧ (Item.type parsed = BLACKLIST_POSITION → Item.start parsed = Item.end_ parsed)
  ∧ (Item.type parsed = BLACKLIST_RANGE → Item.start parsed ≠ Item.end_ parsed)
  ∧ (Item.type parsed = BLACKLIST_GENE →
     genes !! text = Some (Item.gene parsed)
     ∧ Item.contig parsed = Gene.contig (Item.gene parsed)
     ∧ Item.start parsed = Gene.start (Item.gene parsed)
     ∧ Item.end_ parsed = Gene.end_ (Item.gene parsed)).
Proof.
  unfold parse_blacklist_item. cbv zeta.
  repeat case_match; intros [= <- <-];
    try match goal with
      | H : parse_range _ _ _ = (true, _, _) |- _ =>
          apply parse_range_succeeds_silently in H as ->
      end;
    (split; [reflexivity|]);
    (split; [intros ->; try discriminate; reflexivity|]);
    cbn [Item.type Item.set_type Item.start Item.end_ Item.contig Item.gene
         Item.set_end Item.set_start Item.set_contig Item.set_gene];
    repeat split; try discriminate; try done; lia.
Qed.

(** X2. The outcome of [parse_blacklist_item] on any text.  On success
    nothing is written to [cerr], a POSITION item has equal ends, a RANGE
    item has different ends (in either order), and without keywords the item
    is a POSITION, a RANGE or a GENE.  On failure exactly one warning is
    written. *)
Theorem parse_blacklist_item_outcome text item (contigs : gmap string contig_t)
    (genes : gmap string gene_t) allow_keyword :
  let r := parse_blacklist_item text item contigs genes allow_keyword in
  if r.1.1 then
    r.2 = []
    ∧ (Item.type r.1.2 = BLACKLIST_POSITION ∧ Item.start r.1.2 = Item.end_ r.1.2
       ∨ Item.type r.1.2 = BLACKLIST_RANGE ∧ Item.start r.1.2 ≠ Item.end_ r.1.2
       ∨ Item.type r.1.2 = BLACKLIST_GENE ∧ genes !! text = Some (Item.gene r.1.2)
       ∨ allow_keyword = true ∧ has_coordinates r.1.2 = false)
  else length r.2 = 1%nat.
Proof.
  cbv zeta.
  destruct (parse_blacklist_item text item contigs genes allow_keyword)
    as [[[] parsed] cerr] eqn:Hparse; cbn [fst snd].
  - destruct (parse_blacklist_item_success _ _ _ _ _ _ _ Hparse)
      as (Hcerr & Hcoord & Hpos & Hrange & Hgene).
    split; [done|].
    destruct (Item.type parsed) eqn:Htype;
      try (right; right; right; destruct allow_keyword;
           [by unfold has_coordinates; rewrite Htype
           |specialize (Hcoord eq_refl); unfold has_coordinates in Hcoord;
            by rewrite Htype in Hcoord]).
    + right; left. auto.
    + left. auto.
    + right; right; left. split; [done|]. by apply Hgene.
  - unfold parse_blacklist_item in Hparse. cbv zeta in Hparse.
    repeat case_match; try discriminate.
    injection Hparse as <- <-.
    match goal with
    | H : parse_range ?r ?c ?i = _ |- _ =>
        pose proof (parse_range_cerr r c i) as Hlen; by rewrite H in Hlen
    end.
Qed.

Ltac eval_eqb :=
  repeat match goal with
    | |- context [Ascii.eqb ?x ?y] =>
        let v := eval vm_compute in (Ascii.eqb x y) in
        match v with
        | true => change (Ascii.eqb x y) with true
        | false => change (Ascii.eqb x y) with false
        end
    end.

Lemma replace_keeps_others a b c s :
  Ascii.eqb c a = false → Ascii.eqb c b = false →
  contains c (replace a b s) = contains c s.
Proof.
  intros Ha Hb. induction s as [|x s IH]; [done|]. cbn [replace contains].
  rewrite IH. destruct (Ascii.eqb_spec x a) as [->|Hxa]; [|done].
  apply Ascii.eqb_neq in Ha, Hb.
  replace (Ascii.eqb b c) with false by (symmetry; apply Ascii.eqb_neq; congruence).
  by replace (Ascii.eqb a c) with false by (symmetry; apply Ascii.eqb_neq; congruence).
Qed.

(** X3. A token whose contig is not in the catalog is rejected, whatever
    follows the colon: the result is false, one warning quotes the token with
    its colons blanked, and the item is left with [strand_defined] cleared and
    nothing else written. *)
Theorem unknown_contig_rejected (contigs : gmap string contig_t) item name rest :
  unsigned_name name → contigs !! name = None →
  parse_range (name ++ String ":" rest) contigs item
  = (false, Item.set_strand_defined false item,
     [warning (name ++ String " " (replace ":" " " rest))]).
Proof.
  intros [[Hne Hall] Hplus] Hunknown. unfold parse_range. cbv zeta.
  rewrite replace_app. cbn [replace]. rewrite Ascii.eqb_refl.
  rewrite (replace_all_chars plain_char ":" " " plain_not_colon name Hall).
  unfold Stream.str, Stream.init. cbn [Stream.eofbit Stream.failbit].
  rewrite (proj1 (extract_string_word plain_char name _ "" plain_not_space Hne Hall)).
  cbv beta iota.
  destruct name as [|c0 name']; [done|].
  assert (Hc0 : plain_char c0 = true) by (by apply andb_true_iff in Hall as [? _]).
  replace (Ascii.eqb c0 "+") with false
    by (symmetry; apply Ascii.eqb_neq; intros ->; by apply (Hplus name')).
  rewrite (plain_not_minus c0 Hc0). cbv beta iota.
  by rewrite Hunknown.
Qed.

Lemma sample_unknown_name : unsigned_name "chrX".
Proof. split; [split; [discriminate | reflexivity] | discriminate]. Qed.

Lemma unknown_contig_rejected_witness :
  parse_range "chrX:5-7:x" Sample.contigs Sample.uninitialized
  = (false, Item.set_strand_defined false Sample.uninitialized,
     ["WARNING: unknown gene or malformed range: chrX 5-7 x"]).
Proof.
  exact (unknown_contig_rejected Sample.contigs Sample.uninitialized "chrX" "5-7:x"
           sample_unknown_name eq_refl).
Defined.

Section SignedTokens.
Variable contigs : gmap string contig_t.
Variable item : blacklist_item_t.
Variables (name : string) (contig : contig_t).
Hypothesis name_plain : plain_name name.
Hypothesis name_known : contigs !! name = Some contig.

(** The token [<sign>name:s-e], for a sign that is no white space. *)
Lemma parse_range_signed_range sign s e :
  Ascii.eqb sign "+" = true ∨ Ascii.eqb sign "-" = true →
  numeral s → numeral e →
  parse_range (String sign (name ++ String ":" (s ++ String "-" e))) contigs item
  = (true,
     parsed_range item (Some (if Ascii.eqb sign "+" then FORWARD else REVERSE)) contig
       (Stream.decimal_value s - 1) (Stream.decimal_value e - 1),
     []).
Proof.
  intros Hsign Hs He. pose proof name_plain as [Hne Hall].
  assert (Hname_c : replace ":" " " name = name)
    by (by apply (replace_all_chars plain_char); [apply plain_not_colon|]).
  assert (Hname_m : replace "-" " " name = name)
    by (by apply (replace_all_chars plain_char); [apply plain_not_minus|]).
  assert (Hnum : ∀ d, numeral d → replace ":" " " d = d ∧ replace "-" " " d = d).
  { intros d (_ & Hd & _). split.
    - by apply (replace_all_chars Stream.isdigit); [apply digit_not_colon|].
    - by apply (replace_all_chars Stream.isdigit); [apply digit_not_minus|]. }
  destruct (Hnum s Hs) as (Hs1 & Hs2), (Hnum e He) as (He1 & He2).
  assert (Hword : ∀ c, Stream.isspace c = false →
            all_chars (λ c, negb (Stream.isspace c)) (String c name) = true).
  { intros c Hc. cbn [all_chars]. rewrite Hc. cbn [negb andb]. clear -Hall.
    induction name as [|c' r IH]; [done|]. cbn [all_chars] in *.
    apply andb_true_iff in Hall as [Hc' Hr]. by rewrite (plain_not_space c' Hc'), IH. }
  assert (Hnot_space : ∀ c, negb (Stream.isspace c) = true → Stream.isspace c = false)
    by (by intros c ?%negb_true_iff).
  unfold parse_range. cbv zeta.
  destruct Hsign as [->%Ascii.eqb_eq| ->%Ascii.eqb_eq].
  - cbn [replace]. rewrite !replace_app. cbn [replace]. rewrite !replace_app.
    cbn [replace]. eval_eqb. cbv iota. rewrite Hname_c, Hname_m, Hs1, He1, Hs2, He2.
    unfold Stream.str, Stream.init. cbn [Stream.eofbit Stream.failbit].
    change (String "+" (name ++ String " " (s ++ String "-" e)))%string
      with (String "+" name ++ String " " (s ++ String "-" e))%string at 1.
    rewrite (proj1 (extract_string_word _ (String "+" name) _ "" Hnot_space
                      ltac:(done) (Hword "+"%char eq_refl))).
    cbv beta iota. eval_eqb. cbv beta iota. rewrite name_known.
    cbn [contains]. rewrite !contains_app. cbn [contains]. rewrite !contains_app.
    cbn [contains]. eval_eqb. rewrite !orb_true_r. cbv iota.
    cbn [Stream.eofbit Stream.failbit].
    change (String "+" (name ++ String " " (s ++ String " " e)))%string
      with (String "+" name ++ String " " (s ++ String " " e))%string.
    rewrite (proj1 (extract_string_word _ (String "+" name) _ name Hnot_space
                      ltac:(done) (Hword "+"%char eq_refl))).
    cbv beta iota.
    rewrite (proj1 (extract_int_numeral s e _ Hs)). cbv beta iota.
    cbn [Stream.fail Stream.failbit].
    rewrite (proj2 (extract_int_numeral e "" _ He)). reflexivity.
  - cbn [replace]. rewrite !replace_app. cbn [replace]. rewrite !replace_app.
    cbn [replace]. eval_eqb. cbv iota. rewrite Hname_c, Hname_m, Hs1, He1, Hs2, He2.
    unfold Stream.str, Stream.init. cbn [Stream.eofbit Stream.failbit].
    change (String "-" (name ++ String " " (s ++ String "-" e)))%string
      with (String "-" name ++ String " " (s ++ String "-" e))%string at 1.
    rewrite (proj1 (extract_string_word _ (String "-" name) _ "" Hnot_space
                      ltac:(done) (Hword "-"%char eq_refl))).
    cbv beta iota. eval_eqb. cbv beta iota. rewrite name_known.
    cbn [contains]. eval_eqb. cbn [orb]. cbv iota.
    cbn [Stream.eofbit Stream.failbit].
    rewrite (proj2 (extract_string_word plain_char name _ name plain_not_space Hne Hall)).
    cbv beta iota.
    rewrite (proj1 (extract_int_numeral s e _ Hs)). cbv beta iota.
    cbn [Stream.fail Stream.failbit].
    rewrite (proj2 (extract_int_numeral e "" _ He)). reflexivity.
Qed.

End SignedTokens.

(** X4. The strand prefixes that the parser honours, for a known contig of
    plain characters and unsigned numerals: [+name:s-e] and [-name:s-e] parse
    to the interval [s-1, e-1] on the forward and on the reverse strand, and
    [+name:p] parses to [p-1, p-1] on the forward strand.  The prefix is
    stripped before the contig is looked up. *)
Theorem strand_prefixes_accepted (contigs : gmap string contig_t) item name contig s e :
  plain_name name → contigs !! name = Some contig → numeral s → numeral e →
  parse_range (String "+" (name ++ String ":" (s ++ String "-" e))) contigs item
  = (true,
     parsed_range item (Some FORWARD) contig
       (Stream.decimal_value s - 1) (Stream.decimal_value e - 1), [])
  ∧ parse_range (String "-" (name ++ String ":" (s ++ String "-" e))) contigs item
    = (true,
       parsed_range item (Some REVERSE) contig
         (Stream.decimal_value s - 1) (Stream.decimal_value e - 1), [])
  ∧ parse_range (String "+" (name ++ String ":" s)) contigs item
    = (true,
       parsed_range item (Some FORWARD) contig
         (Stream.decimal_value s - 1) (Stream.decimal_value s - 1), []).
Proof.
  intros Hname Hknown Hs He. split; [|split].
  - by rewrite (parse_range_signed_range contigs item name contig Hname Hknown "+" s e)
      by auto.
  - by rewrite (parse_range_signed_range contigs item name contig Hname Hknown "-" s e)
      by auto.
  - by apply parse_range_plus_position.
Qed.

Lemma strand_prefixes_accepted_witness :
  parse_range "+chr1:100-200" Sample.contigs Sample.uninitialized
  = (true, parsed_range Sample.uninitialized (Some FORWARD) Sample.chr1 99 199, [])
  ∧ parse_range "-chr1:100-200" Sample.contigs Sample.uninitialized
    = (true, parsed_range Sample.uninitialized (Some REVERSE) Sample.chr1 99 199, [])
  ∧ parse_range "+chr1:100" Sample.contigs Sample.uninitialized
    = (true, parsed_range Sample.uninitialized (Some FORWARD) Sample.chr1 99 99, []).
Proof.
  exact (strand_prefixes_accepted Sample.contigs Sample.uninitialized "chr1"
           Sample.chr1 "100" "200" sample_name eq_refl
           sample_numeral_100 sample_numeral_200).
Defined.

Lemma read_digits_stop d c r :
  all_chars Stream.isdigit d = true → Stream.isdigit c = false →
  Stream.read_digits (d ++ String c r) = (d, String c r).
Proof.
  intros Hd Hc. induction d as [|x d IH]; simpl.
  - by rewrite Hc.
  - apply andb_true_iff in Hd as [Hx Hd]. by rewrite Hx, (IH Hd).
Qed.

(** [iss >> n] stops at the first character that is no digit. *)
Lemma extract_int_stop d c r old :
  numeral d → Stream.isdigit c = false →
  Stream.extract_int (Stream.mk (String " " (d ++ String c r)) false false) old
  = (Stream.mk (String c r) false false, Stream.decimal_value d).
Proof.
  intros Hnum Hc. destruct (numeral_fits d Hnum) as [Hmax Hmin].
  destruct Hnum as (Hne & Hd & _).
  pose proof (read_digits_stop d c r Hd Hc) as Hread.
  destruct d as [|x d]; [done|].
  pose proof Hd as [Hx _]%andb_true_iff.
  pose proof (digit_cases x Hx) as (Hsp & _ & Hmi & Hpl & _).
  unfold Stream.extract_int, Stream.good.
  cbn [Stream.buf Stream.eofbit Stream.failbit negb andb].
  rewrite skip_ws_blank.
  change (String x d ++ String c r)%string with (String x (d ++ String c r)) in *.
  rewrite (skip_ws_word x _ Hsp), Hmi, Hpl, Hread, Hmax, Hmin. done.
Qed.

(** X5. After the position of a token [name:p] the parser reads no
    further: whatever follows the number, from a first character that is no
    digit on and without a [-], is ignored, and the token parses to
    [p-1, p-1] as [name:p] does. *)
Theorem trailing_characters_ignored (contigs : gmap string contig_t) item name contig
    p c rest :
  unsigned_name name → contigs !! name = Some contig → numeral p →
  Stream.isdigit c = false → contains "-" (String c rest) = false →
  parse_range (name ++ String ":" (p ++ String c rest)) contigs item
  = (true,
     parsed_range item None contig
       (Stream.decimal_value p - 1) (Stream.decimal_value p - 1),
     []).
Proof.
  intros [[Hne Hall] Hplus] Hknown Hp Hc Hminus.
  set (c' := if Ascii.eqb c ":" then " "%char else c).
  assert (Hc' : Stream.isdigit c' = false).
  { subst c'. by destruct (Ascii.eqb c ":"). }
  assert (Hblank : replace ":" " " (name ++ String ":" (p ++ String c rest))
                   = (name ++ String " " (p ++ String c' (replace ":" " " rest)))%string).
  { rewrite !replace_app. cbn [replace]. rewrite replace_app. cbn [replace].
    rewrite Ascii.eqb_refl.
    rewrite (replace_all_chars plain_char ":" " " plain_not_colon name Hall).
    by rewrite (replace_all_chars Stream.isdigit ":" " " digit_not_colon p
                  (proj1 (proj2 Hp))). }
  assert (Hcontains :
    contains "-" (name ++ String " " (p ++ String c' (replace ":" " " rest))) = false).
  { rewrite <- Hblank.
    rewrite (replace_keeps_others ":" " " "-") by reflexivity.
    rewrite !contains_app. cbn [contains]. rewrite contains_app.
    rewrite (contains_all_chars plain_char "-" plain_not_minus name Hall).
    rewrite (contains_all_chars Stream.isdigit "-" digit_not_minus p (proj1 (proj2 Hp))).
    eval_eqb. by rewrite Hminus. }
  unfold parse_range. cbv zeta. rewrite Hblank, Hcontains.
  unfold Stream.str, Stream.init. cbn [Stream.eofbit Stream.failbit].
  rewrite (proj1 (extract_string_word plain_char name _ "" plain_not_space Hne Hall)).
  cbv beta iota.
  destruct name as [|c0 name']; [done|].
  assert (Hc0 : plain_char c0 = true) by (by apply andb_true_iff in Hall as [? _]).
  replace (Ascii.eqb c0 "+") with false
    by (symmetry; apply Ascii.eqb_neq; intros ->; by apply (Hplus name')).
  rewrite (plain_not_minus c0 Hc0). cbv beta iota.
  rewrite Hknown, (extract_int_stop p c' _ _ Hp Hc'). reflexivity.
Qed.

Lemma trailing_characters_ignored_witness :
  parse_range "chr1:100abc:7" Sample.contigs Sample.uninitialized
  = (true, parsed_range Sample.uninitialized None Sample.chr1 99 99, []).
Proof.
  exact (trailing_characters_ignored Sample.contigs Sample.uninitialized "chr1"
           Sample.chr1 "100" "a" "bc:7" sample_unsigned_name eq_refl
           sample_numeral_100 eq_refl eq_refl).
Defined.

Lemma colon_not_keyword text : contains ":" text = true → text ∉ keywords.
Proof.
  intros Hcolon Hin. unfold keywords in Hin.
  repeat (apply elem_of_cons in Hin as [->|Hin]; [discriminate|]).
  by apply elem_of_nil in Hin.
Qed.

(** Among the texts that are no keyword, [allow_keyword] changes nothing. *)
Lemma allow_keyword_irrelevant text item (contigs : gmap string contig_t)
    (genes : gmap string gene_t) allow_keyword :
  text ∉ keywords →
  parse_blacklist_item text item contigs genes allow_keyword
  = parse_blacklist_item text item contigs genes false.
Proof.
  intros Hnot. destruct allow_keyword; [|done].
  unfold parse_blacklist_item. cbv zeta. cbn [andb].
  repeat match goal with
    | |- context [String.eqb text ?k] =>
        replace (String.eqb text k) with false
          by (symmetry; apply String.eqb_neq; intros ->; apply Hnot;
              unfold keywords; set_solver)
    end.
  done.
Qed.

(** X6. The type of the item of a range token [name:s-e], as first or as
    second token of a line, for a known contig of plain characters and a
    token that names no gene: a POSITION item when the two numbers are equal,
    a RANGE item otherwise, also when the first number is the larger one. *)
Theorem range_token_type (contigs : gmap string contig_t) (genes : gmap string gene_t)
    item name contig s e allow_keyword :
  unsigned_name name → contigs !! name = Some contig → numeral s → numeral e →
  genes !! (name ++ String ":" (s ++ String "-" e))%string = None →
  parse_blacklist_item (name ++ String ":" (s ++ String "-" e)) item contigs genes
    allow_keyword
  = (true,
     Item.mk
       (if Stream.decimal_value s =? Stream.decimal_value e
        then BLACKLIST_POSITION else BLACKLIST_RANGE)
       false (Item.strand item) contig
       (Stream.decimal_value s - 1) (Stream.decimal_value e - 1) (Item.gene item),
     []).
Proof.
  intros Hname Hknown Hs He Hgene.
  rewrite allow_keyword_irrelevant.
  2: { apply colon_not_keyword. rewrite contains_app. cbn [contains].
       rewrite Ascii.eqb_refl. by rewrite orb_true_r. }
  unfold parse_blacklist_item. cbv zeta. cbn [andb]. rewrite Hgene.
  rewrite (parse_range_range contigs item name contig (proj1 Hname) Hknown s e Hname Hs He).
  cbv beta iota. unfold parsed_range. cbn [Item.start Item.end_].
  replace (Stream.decimal_value s - 1 =? Stream.decimal_value e - 1)
    with (Stream.decimal_value s =? Stream.decimal_value e) by lia.
  by destruct (Stream.decimal_value s =? Stream.decimal_value e).
Qed.

Lemma range_token_type_witness :
  parse_blacklist_item "chr1:200-100" Sample.uninitialized Sample.contigs Sample.genes true
  = (true,
     Item.mk BLACKLIST_RANGE false FORWARD Sample.chr1 199 99 (Sample.gene 0 0%N 0 0), [])
  ∧ parse_blacklist_item "chr1:100-100" Sample.uninitialized Sample.contigs Sample.genes
      false
    = (true,
       Item.mk BLACKLIST_POSITION false FORWARD Sample.chr1 99 99 (Sample.gene 0 0%N 0 0),
       []).
Proof.
  split.
  - exact (range_token_type Sample.contigs Sample.genes Sample.uninitialized "chr1"
             Sample.chr1 "200" "100" true sample_unsigned_name eq_refl
             sample_numeral_200 sample_numeral_100 eq_refl).
  - exact (range_token_type Sample.contigs Sample.genes Sample.uninitialized "chr1"
             Sample.chr1 "100" "100" false sample_unsigned_name eq_refl
             sample_numeral_100 sample_numeral_100 eq_refl).
Defined.

(** * Further properties of the matching *)

Section MatchingMore.
Variable is_read_through : fusion_t → bool.
Variables (evalue_cutoff : float) (max_mate_gap : Z).

Abbreviation matches item fusion which_breakpoint :=
  (matches_blacklist_item is_read_through item fusion which_breakpoint
     evalue_cutoff max_mate_gap).

(** X7. A RANGE item behind the gate (same contig, compatible strand).
    A gene that lies within the range is matched.  A gene that shares no base
    with the range is not matched.  A gene that reaches beyond the range on
    both sides is not matched either, whatever part of it the range
    covers. *)
Theorem range_item_containment item fusion which_breakpoint :
  Item.type item = BLACKLIST_RANGE →
  passes_gate item fusion which_breakpoint →
  let gene := side_gene which_breakpoint fusion in
  (Item.start item <= Gene.start gene → Gene.end_ gene <= Item.end_ item →
   matches item fusion which_breakpoint = true)
  ∧ (Gene.start gene <= Gene.end_ gene → Item.start item <= Item.end_ item →
     Gene.end_ gene < Item.start item ∨ Item.end_ item < Gene.start gene →
     matches item fusion which_breakpoint = false)
  ∧ (Gene.start gene < Item.start item → Item.end_ item < Gene.end_ gene →
     matches item fusion which_breakpoint = false).
Proof.
  intros Htype Hgate gene.
  rewrite (range_item_threshold is_read_through evalue_cutoff max_mate_gap
             item fusion which_breakpoint Htype Hgate).
  fold gene. split; [|split].
  - intros Hs He. rewrite overlapping_fraction_contained by lia. reflexivity.
  - intros Hg Hi Hdisjoint. rewrite overlapping_fraction_disjoint by lia. reflexivity.
  - intros Hs He. unfold overlapping_fraction.
    replace (Gene.start gene >=? Item.start item) with false by lia.
    replace (Gene.end_ gene <=? Item.end_ item) with false by lia.
    cbn [andb]. rewrite andb_false_r. reflexivity.
Qed.

(** X8. A POSITION or RANGE item never matches a breakpoint of another
    contig, and an item with a strand never matches a breakpoint whose
    predicted strand is known to be the other one. *)
Theorem coordinate_item_gate item fusion which_breakpoint :
  Item.type item = BLACKLIST_POSITION ∨ Item.type item = BLACKLIST_RANGE →
  side_contig which_breakpoint fusion ≠ Item.contig item
  ∨ (Item.strand_defined item = true
     ∧ Fusion.predicted_strands_ambiguous fusion = false
     ∧ side_strand which_breakpoint fusion ≠ Item.strand item) →
  matches item fusion which_breakpoint = false.
Proof.
  intros Htype Hclosed. unfold matches_blacklist_item.
  fold (side_contig which_breakpoint fusion) (side_strand which_breakpoint fusion).
  assert (Hgate :
    negb (N.eqb (side_contig which_breakpoint fusion) (Item.contig item)) = true
    ∨ Item.strand_defined item
        && negb (Fusion.predicted_strands_ambiguous fusion)
        && negb (strand_eqb (side_strand which_breakpoint fusion) (Item.strand item))
      = true).
  { destruct Hclosed as [Hcontig|(-> & -> & Hstrand)].
    - left. apply negb_true_iff. by apply N.eqb_neq.
    - right. cbn [andb negb]. apply negb_true_iff.
      destruct (strand_eqb _ _) eqn:Heq; [|done]. by apply strand_eqb_eq in Heq. }
  destruct Htype as [Htype|Htype]; rewrite Htype;
    (destruct (negb (N.eqb _ _)); [done|]);
    destruct Hgate as [?|Hstrand]; [done | by rewrite Hstrand | done | by rewrite Hstrand].
Qed.

(** X9. The decision of a line does not depend on the order of its two
    items. *)
Theorem line_matches_symmetric item1 item2 fusion :
  line_matches is_read_through item1 item2 fusion evalue_cutoff max_mate_gap
  = line_matches is_read_through item2 item1 fusion evalue_cutoff max_mate_gap.
Proof.
  unfold line_matches.
  destruct (matches item1 fusion 1), (matches item2 fusion 2),
    (matches item1 fusion 2), (matches item2 fusion 1); reflexivity.
Qed.

(** X10. With [any], [split_read_any], [discordant_mates], [read_through],
    [low_support], [filter_spliced] or [not_both_spliced] as second item, a
    line condemns a fusion exactly when the condition of the keyword holds
    and the first item matches one of the two breakpoints. *)
Theorem sideless_keyword_line :
  Forall
    (λ type, ∀ item1 item fusion,
       (∀ which_breakpoint,
          matches (Item.set_type type item) fusion which_breakpoint
          = matches (Item.set_type type item) fusion 1)
       ∧ line_matches is_read_through item1 (Item.set_type type item) fusion
           evalue_cutoff max_mate_gap
         = matches (Item.set_type type item) fusion 1
           && (matches item1 fusion 1 || matches item1 fusion 2))
    sideless_types.
Proof.
  unfold sideless_types.
  repeat (apply List.Forall_cons; [|]); [..|apply List.Forall_nil];
    intros item1 item fusion; (split; [intros which_breakpoint; reflexivity|]);
    unfold line_matches;
    match goal with
    | |- context [matches item1 fusion 1 && matches ?kw fusion 2] =>
        change (matches kw fusion 2) with (matches kw fusion 1);
        generalize (matches kw fusion 1)
    end;
    generalize (matches item1 fusion 1) (matches item1 fusion 2);
    intros [] [] []; reflexivity.
Qed.

End MatchingMore.

Lemma range_item_containment_witness :
  let fusion := Sample.fusion (Sample.gene 7 Sample.chr1 10 19) Sample.TP53 15 5500
                  1 1 1 (-1) None in
  matches_blacklist_item Sample.is_read_through (Sample.range_item 0 99) fusion 1
    Sample.zero 0 = true
  ∧ matches_blacklist_item Sample.is_read_through (Sample.range_item 30 99) fusion 1
      Sample.zero 0 = false
  ∧ matches_blacklist_item Sample.is_read_through (Sample.range_item 11 18) fusion 1
      Sample.zero 0 = false.
Proof.
  cbv zeta.
  assert (Hgate : ∀ s e, passes_gate (Sample.range_item s e)
            (Sample.fusion (Sample.gene 7 Sample.chr1 10 19) Sample.TP53 15 5500
               1 1 1 (-1) None) 1)
    by (intros; split; [reflexivity | discriminate]).
  split; [|split].
  - destruct (range_item_containment Sample.is_read_through Sample.zero 0
                (Sample.range_item 0 99) _ 1 eq_refl (Hgate 0 99))
      as (Hin & _ & _).
    apply Hin; vm_compute; discriminate.
  - destruct (range_item_containment Sample.is_read_through Sample.zero 0
                (Sample.range_item 30 99) _ 1 eq_refl (Hgate 30 99))
      as (_ & Hout & _).
    apply Hout; [vm_compute; discriminate | vm_compute; discriminate | left; reflexivity].
  - destruct (range_item_containment Sample.is_read_through Sample.zero 0
                (Sample.range_item 11 18) _ 1 eq_refl (Hgate 11 18))
      as (_ & _ & Hover).
    apply Hover; reflexivity.
Defined.

Lemma coordinate_item_gate_witness :
  matches_blacklist_item Sample.is_read_through
    (Item.mk BLACKLIST_POSITION true REVERSE Sample.chr1 1000 1000 Sample.BRCA1)
    (Sample.fusion Sample.BRCA1 Sample.TP53 1000 5500 1 1 1 (-1) None)
    1 Sample.zero 0 = false
  ∧ matches_blacklist_item Sample.is_read_through (Sample.range_item 0 9999)
      (Sample.fusion Sample.BRCA1 Sample.TP53 1000 5500 1 1 1 (-1) None)
      2 Sample.zero 0 = false.
Proof.
  split.
  - apply (coordinate_item_gate Sample.is_read_through Sample.zero 0); [by left|].
    right. split; [reflexivity|]. split; [reflexivity|discriminate].
  - apply (coordinate_item_gate Sample.is_read_through Sample.zero 0); [by right|]. left. discriminate.
Defined.

(** * Further properties of the index *)

Lemma index_keys_elem contig start end_ (index_keys : list (contig_t * position_t)) key :
  key ∈ get_index_keys_from_range contig start end_ index_keys
  ↔ key ∈ index_keys
    ∨ ∃ k, Z.quot start bucket_size <= k <= Z.quot (end_ + bucket_size - 1) bucket_size
           ∧ key = (contig, k * bucket_size).
Proof.
  rewrite get_index_keys_from_range_seqZ, elem_of_app, list_elem_of_fmap.
  split; (intros [?|(k & Hk1 & Hk2)]; [by left|right; exists k]).
  - apply elem_of_seqZ in Hk2. split; [lia|done].
  - split; [apply Hk2|]. apply elem_of_seqZ. lia.
Qed.




(** X12. The index that the filter builds holds a fusion under a key
    exactly when the fusion is eligible (it has no filter tag, or
    [closest_genomic_breakpoint1] is not negative) and the key is one of the
    keys of its two breakpoints and of the spans of its two genes. *)
Theorem index_holds_eligible_fusions (fusions : list fusion_t) key i :
  indexed (build_index fusions) key i
  ↔ ∃ fusion, fusions !! i = Some fusion
              ∧ (Fusion.filter fusion = None
                 ∨ 0 <= Fusion.closest_genomic_breakpoint1 fusion)
              ∧ (key ∈ get_index_keys_from_range (Fusion.contig1 fusion)
                         (Fusion.breakpoint1 fusion) (Fusion.breakpoint1 fusion) []
                 ∨ key ∈ get_index_keys_from_range (Fusion.contig2 fusion)
                           (Fusion.breakpoint2 fusion) (Fusion.breakpoint2 fusion) []
                 ∨ key ∈ get_index_keys_from_range (Fusion.contig1 fusion)
                           (Gene.start (Fusion.gene1 fusion))
                           (Gene.end_ (Fusion.gene1 fusion)) []
                 ∨ key ∈ get_index_keys_from_range (Fusion.contig2 fusion)
                           (Gene.start (Fusion.gene2 fusion))
                           (Gene.end_ (Fusion.gene2 fusion)) []).
Proof.
  rewrite indexed_build.
  assert (Hel : ∀ f, eligible f = true
                     ↔ Fusion.filter f = None ∨ 0 <= Fusion.closest_genomic_breakpoint1 f).
  { intros f. unfold eligible. rewrite orb_true_iff, Z.leb_le.
    by destruct (Fusion.filter f); cbn; intuition (discriminate || auto). }
  assert (Hkeys : ∀ f,
    key ∈ fusion_index_keys f
    ↔ key ∈ get_index_keys_from_range (Fusion.contig1 f)
              (Fusion.breakpoint1 f) (Fusion.breakpoint1 f) []
      ∨ key ∈ get_index_keys_from_range (Fusion.contig2 f)
                (Fusion.breakpoint2 f) (Fusion.breakpoint2 f) []
      ∨ key ∈ get_index_keys_from_range (Fusion.contig1 f)
                (Gene.start (Fusion.gene1 f)) (Gene.end_ (Fusion.gene1 f)) []
      ∨ key ∈ get_index_keys_from_range (Fusion.contig2 f)
                (Gene.start (Fusion.gene2 f)) (Gene.end_ (Fusion.gene2 f)) []).
  { intros f. unfold fusion_index_keys. rewrite !index_keys_elem.
    pose proof (not_elem_of_nil key). tauto. }
  split; intros (f & Hf & He & Hk); exists f; (split; [done|]).
  - by rewrite <- Hel, <- Hkeys.
  - by rewrite Hel, Hkeys.
Qed.

(** * Further properties of the driver *)

Section DriverMore.
Variable is_read_through : fusion_t → bool.
Variable uninitialized : blacklist_item_t.
Variables (contigs : gmap string contig_t) (genes : gmap string gene_t).
Variables (evalue_cutoff : float) (max_mate_gap : Z).

Abbreviation matches_ item fusion which_breakpoint :=
  (matches_blacklist_item is_read_through item fusion which_breakpoint
     evalue_cutoff max_mate_gap).
Abbreviation run_ :=
  (filter_blacklisted_ranges is_read_through uninitialized contigs genes
     evalue_cutoff max_mate_gap).
Abbreviation condemned_ :=
  (condemned is_read_through uninitialized contigs genes evalue_cutoff max_mate_gap).







End DriverMore.


Lemma parse_blacklist_item_failure_one text item (contigs : gmap string contig_t)
    (genes : gmap string gene_t) allow_keyword parsed cerr :
  parse_blacklist_item text item contigs genes allow_keyword = (false, parsed, cerr) →
  length cerr = 1%nat.
Proof.
  unfold parse_blacklist_item. cbv zeta. intros Hparse.
  repeat case_match; try discriminate.
  injection Hparse as <- <-.
  match goal with
  | H : parse_range ?r ?c ?i = _ |- _ =>
      pose proof (parse_range_cerr r c i) as Hlen; by rewrite H in Hlen
  end.
Qed.

Section RunMore.
Variable is_read_through : fusion_t → bool.
Variable uninitialized : blacklist_item_t.
Variables (contigs : gmap string contig_t) (genes : gmap string gene_t).
Variables (evalue_cutoff : float) (max_mate_gap : Z).

Abbreviation run' :=
  (filter_blacklisted_ranges is_read_through uninitialized contigs genes
     evalue_cutoff max_mate_gap).
Abbreviation step' :=
  (process_line is_read_through uninitialized contigs genes evalue_cutoff max_mate_gap).
Abbreviation condemned'' :=
  (condemned is_read_through uninitialized contigs genes evalue_cutoff max_mate_gap).
Abbreviation items' := (line_items uninitialized contigs genes).
Abbreviation warnings' := (line_warnings uninitialized contigs genes).
Abbreviation facts :=
  (run_facts is_read_through uninitialized contigs genes evalue_cutoff max_mate_gap).

(** X14. Which fusions a run tags.  A fusion leaves the filter as it
    entered or with the "blacklist" tag, and it leaves with that tag exactly
    when it entered with it or it is in the index and a line of the blacklist
    whose two tokens resolve matches it and shares an index key with it. *)
Theorem tagged_exactly_when_condemned (fusions : list fusion_t) blacklist_file i fusion :
  fusions !! i = Some fusion →
  let final := State.fusions (run' fusions blacklist_file).1 in
  (final !! i = Some fusion ∨ final !! i = Some (tag fusion))
  ∧ (final !! i = Some (tag fusion)
     ↔ condemned'' blacklist_file fusion ∨ Fusion.filter fusion = FILTERS_blacklist).
Proof.
  intros Hi final. destruct (facts fusions blacklist_file) as (_ & Htag & Hhit).
  fold final in Htag, Hhit. split; [|split].
  - destruct (Htag i fusion Hi) as [?|[? _]]; auto.
  - intros Hfinal. destruct (Htag i fusion Hi) as [Hsame|[_ ?]]; [|by left].
    right. rewrite Hsame in Hfinal. injection Hfinal as Heq.
    by rewrite Heq.
  - intros [Hc|Hblack]; [by apply Hhit|].
    assert (tag fusion = fusion) as ->
      by (unfold tag; rewrite <- Hblack; apply set_filter_same).
    destruct (Htag i fusion Hi) as [?|[Hfinal _]]; [done|].
    rewrite Hfinal. f_equal. unfold tag. rewrite <- Hblack. apply set_filter_same.
Qed.

(** X15. A longer blacklist tags no less: a fusion that a run tags is also
    tagged by a run on the same fusions with a blacklist that holds every line
    of the first one. *)
Theorem more_lines_tag_more (fusions : list fusion_t) blacklist1 blacklist2 i fusion :
  (∀ line : string, line ∈ blacklist1 → line ∈ blacklist2) →
  fusions !! i = Some fusion →
  State.fusions (run' fusions blacklist1).1 !! i = Some (tag fusion) →
  State.fusions (run' fusions blacklist2).1 !! i = Some (tag fusion).
Proof.
  intros Hsub Hi Hfirst.
  destruct (facts fusions blacklist1) as (_ & Htag1 & _).
  destruct (facts fusions blacklist2) as (_ & Htag2 & Hhit2).
  destruct (Htag1 i fusion Hi) as [Hsame|[_ (Hel & line & Hline & Hc)]].
  - assert (tag fusion = fusion) as Heq by congruence.
    destruct (Htag2 i fusion Hi) as [?|[? _]]; congruence.
  - apply Hhit2; [done|]. split; [done|]. exists line. auto.
Qed.

(** X16. The order of the lines of the blacklist and their repetition do
    not matter: two blacklists with the same lines leave the same fusions and
    return the same count. *)
Theorem line_order_is_irrelevant (fusions : list fusion_t) blacklist1 blacklist2 :
  (∀ line : string, line ∈ blacklist1 ↔ line ∈ blacklist2) →
  State.fusions (run' fusions blacklist1).1 = State.fusions (run' fusions blacklist2).1
  ∧ (run' fusions blacklist1).2 = (run' fusions blacklist2).2.
Proof.
  intros Hsame.
  destruct (facts fusions blacklist1) as (Hlen1 & Htag1 & Hhit1).
  destruct (facts fusions blacklist2) as (Hlen2 & Htag2 & Hhit2).
  assert (Hmove : ∀ f, condemned'' blacklist1 f ↔ condemned'' blacklist2 f).
  { intros f. unfold condemned. by setoid_rewrite Hsame. }
  assert (Heq : State.fusions (run' fusions blacklist1).1
                = State.fusions (run' fusions blacklist2).1).
  { apply list_eq. intros i. destruct (fusions !! i) as [f|] eqn:Hf.
    - destruct (Htag1 i f Hf) as [H1|[H1 Hc1]], (Htag2 i f Hf) as [H2|[H2 Hc2]];
        rewrite H1, H2; try done.
      + by rewrite <- (Hhit1 i f Hf (proj2 (Hmove f) Hc2)), H1.
      + by rewrite <- (Hhit2 i f Hf (proj1 (Hmove f) Hc1)), H2.
    - apply lookup_ge_None in Hf.
      rewrite (proj2 (lookup_ge_None _ i)) by lia.
      by rewrite (proj2 (lookup_ge_None _ i)) by lia. }
  split; [done|].
  unfold filter_blacklisted_ranges in *. cbn [fst snd] in *. by rewrite Heq.
Qed.

(** X17. Every fusion is judged on its own: what the filter leaves of a
    fusion depends on that fusion and on the blacklist, not on the other
    fusions of the collection nor on its place in it. *)
Theorem fusions_are_judged_alone (fusions1 fusions2 : list fusion_t) blacklist_file
    i j fusion :
  fusions1 !! i = Some fusion → fusions2 !! j = Some fusion →
  State.fusions (run' fusions1 blacklist_file).1 !! i
  = State.fusions (run' fusions2 blacklist_file).1 !! j.
Proof.
  intros Hi Hj.
  destruct (facts fusions1 blacklist_file) as (_ & Htag1 & Hhit1).
  destruct (facts fusions2 blacklist_file) as (_ & Htag2 & Hhit2).
  destruct (Htag1 i fusion Hi) as [H1|[H1 Hc1]], (Htag2 j fusion Hj) as [H2|[H2 Hc2]];
    rewrite H1, H2; try done.
  - by rewrite <- (Hhit1 i fusion Hi Hc2), H1.
  - by rewrite <- (Hhit2 j fusion Hj Hc1), H2.
Qed.

Lemma untagged_shrinks (before after : list fusion_t) :
  Forall2 (λ f f', f' = f ∨ f' = tag f) before after →
  (length (List.filter (λ f, filter_is_null (Fusion.filter f)) after)
   ≤ length (List.filter (λ f, filter_is_null (Fusion.filter f)) before))%nat.
Proof.
  induction 1 as [|f f' before after Hf _ IH]; [done|]. cbn [List.filter].
  destruct Hf as [-> | ->].
  - destruct (filter_is_null (Fusion.filter f)); cbn [length]; lia.
  - cbn [tag Fusion.set_filter Fusion.filter FILTERS_blacklist filter_is_null].
    destruct (filter_is_null (Fusion.filter f)); cbn [length]; lia.
Qed.

(** X18. The count that the filter returns is the number of fusions
    without a filter tag when it ends, and it never exceeds the number of
    fusions that had none when it started (for fewer than 2^32 fusions, the
    range of the counter). *)
Theorem survivors_never_increase (fusions : list fusion_t) blacklist_file :
  Z.of_nat (length fusions) < 2 ^ 32 →
  let untagged l :=
    Z.of_nat (length (List.filter (λ f, filter_is_null (Fusion.filter f)) l)) in
  (run' fusions blacklist_file).2
  = untagged (State.fusions (run' fusions blacklist_file).1)
  ∧ (run' fusions blacklist_file).2 <= untagged fusions.
Proof.
  intros Hsmall untagged.
  destruct (facts fusions blacklist_file) as (Hlen & Htag & _).
  set (final := State.fusions (run' fusions blacklist_file).1) in *.
  assert (Hrel : Forall2 (λ f f', f' = f ∨ f' = tag f) fusions final).
  { apply Forall2_same_length_lookup. split; [done|].
    intros i f f' Hf Hf'. destruct (Htag i f Hf) as [?|[? _]]; [left|right]; congruence. }
  pose proof (untagged_shrinks fusions final Hrel) as Hle.
  assert (Hbound : ∀ l : list fusion_t,
            (length (List.filter (λ f, filter_is_null (Fusion.filter f)) l) ≤ length l)%nat).
  { intros l. induction l as [|x l IH]; [done|]. cbn [List.filter].
    destruct (filter_is_null _); cbn [length]; lia. }
  pose proof (Hbound final) as Hfinal.
  assert (Hcount : (run' fusions blacklist_file).2 = untagged final).
  { unfold filter_blacklisted_ranges. cbn [snd]. unfold count_remaining.
    fold final. subst untagged. cbv beta. apply Z.mod_small. lia. }
  split; [done|]. rewrite Hcount. subst untagged. cbv beta. lia.
Qed.

(** X19. What a run writes to [cerr]: the warnings of its lines, in the
    order of the lines, whatever the fusions are.  A line writes at most one
    warning, and it writes none exactly when it is a comment or both of its
    tokens resolve. *)
Theorem warnings_of_a_run (fusions : list fusion_t) blacklist_file :
  State.cerr (run' fusions blacklist_file).1 = concat (warnings' <$> blacklist_file)
  ∧ ∀ line,
      (length (warnings' line) ≤ 1)%nat
      ∧ (warnings' line = [] ↔ is_comment line = true ∨ is_Some (items' line)).
Proof.
  split.
  - unfold filter_blacklisted_ranges. cbn [fst].
    by rewrite process_lines_cerr.
  - intros line. unfold line_warnings, line_items.
    destruct (is_comment line); [split; [cbn; lia|split; auto]|].
    destruct (parse_blacklist_item (line_tokens line).1 _ _ _ _)
      as [[[] item1] cerr1] eqn:H1.
    + apply parse_blacklist_item_success in H1 as (-> & _).
      destruct (parse_blacklist_item (line_tokens line).2 _ _ _ _)
        as [[[] item2] cerr2] eqn:H2; cbn [snd app].
      * apply parse_blacklist_item_success in H2 as (-> & _).
        split; [cbn; lia|]. split; [intros _; right; eauto|done].
      * apply parse_blacklist_item_failure_one in H2.
        split; [lia|]. split.
        -- intros ->. discriminate.
        -- intros [?|[? ?]]; discriminate.
    + apply parse_blacklist_item_failure_one in H1.
      split; [lia|]. split.
      * intros ->. discriminate.
      * intros [?|[? ?]]; discriminate.
Qed.

End RunMore.

Lemma tagged_exactly_when_condemned_witness :
  State.fusions (Sample.run [Sample.lost; Sample.recoverable] ["chr1:1001 any"]).1 !! 0%nat
  = Some Sample.lost
  ∨ State.fusions (Sample.run [Sample.lost; Sample.recoverable] ["chr1:1001 any"]).1 !! 0%nat
    = Some (tag Sample.lost).
Proof.
  exact (proj1 (tagged_exactly_when_condemned Sample.is_read_through
                  Sample.uninitialized Sample.contigs Sample.genes Sample.zero 0
                  [Sample.lost; Sample.recoverable] ["chr1:1001 any"] 0%nat
                  Sample.lost eq_refl)).
Defined.

Lemma more_lines_tag_more_witness :
  State.fusions (Sample.run [Sample.recoverable] ["# rule"; "chr1:1001 any"; "chr2:7 any"]).1
    !! 0%nat
  = Some (tag Sample.recoverable).
Proof.
  apply (more_lines_tag_more Sample.is_read_through Sample.uninitialized
           Sample.contigs Sample.genes Sample.zero 0
           [Sample.recoverable] ["chr1:1001 any"]
           ["# rule"; "chr1:1001 any"; "chr2:7 any"] 0%nat Sample.recoverable).
  - intros line. rewrite !elem_of_cons, !elem_of_nil. tauto.
  - reflexivity.
  - vm_compute. reflexivity.
Defined.

Lemma line_order_is_irrelevant_witness :
  State.fusions (Sample.run [Sample.recoverable; Sample.lost]
                   ["chr1:1001 any"; "chr2:7 any"]).1
  = State.fusions (Sample.run [Sample.recoverable; Sample.lost]
                     ["chr2:7 any"; "chr1:1001 any"; "chr2:7 any"]).1.
Proof.
  apply (line_order_is_irrelevant Sample.is_read_through Sample.uninitialized
           Sample.contigs Sample.genes Sample.zero 0
           [Sample.recoverable; Sample.lost] ["chr1:1001 any"; "chr2:7 any"]
           ["chr2:7 any"; "chr1:1001 any"; "chr2:7 any"]).
  intros line. rewrite !elem_of_cons, !elem_of_nil. tauto.
Defined.

Lemma fusions_are_judged_alone_witness :
  State.fusions (Sample.run [Sample.recoverable] ["chr1:1001 any"]).1 !! 0%nat
  = State.fusions (Sample.run [Sample.lost; Sample.recoverable] ["chr1:1001 any"]).1
      !! 1%nat.
Proof.
  exact (fusions_are_judged_alone Sample.is_read_through Sample.uninitialized
           Sample.contigs Sample.genes Sample.zero 0
           [Sample.recoverable] [Sample.lost; Sample.recoverable] ["chr1:1001 any"]
           0%nat 1%nat Sample.recoverable eq_refl eq_refl).
Defined.

Lemma survivors_never_increase_witness :
  (Sample.run [Sample.fusion Sample.BRCA1 Sample.TP53 1000 5500 1 1 1 (-1) None;
               Sample.fusion Sample.BRCA1 Sample.TP53 7000 5500 1 1 1 (-1) None]
     ["chr1:1001 any"]).2
  <= 2.
Proof.
  destruct (survivors_never_increase Sample.is_read_through Sample.uninitialized
              Sample.contigs Sample.genes Sample.zero 0
              [Sample.fusion Sample.BRCA1 Sample.TP53 1000 5500 1 1 1 (-1) None;
               Sample.fusion Sample.BRCA1 Sample.TP53 7000 5500 1 1 1 (-1) None]
              ["chr1:1001 any"]) as [_ Hle].
  - vm_compute. reflexivity.
  - exact Hle.
Defined.

(** X20. A line made of a single word changes no fusion and nothing in the
    index, whatever the word is, unless the gene catalog holds a gene with the
    empty name: the second token is then the empty text, which is no keyword
    and no range. *)
Theorem one_word_line_is_skipped is_read_through uninitialized
    (contigs : gmap string contig_t) (genes : gmap string gene_t)
    evalue_cutoff max_mate_gap (st : state) line :
  all_chars (λ c, negb (Stream.isspace c)) line = true →
  genes !! EmptyString = None →
  State.fusions
    (process_line is_read_through uninitialized contigs genes evalue_cutoff
       max_mate_gap st line) = State.fusions st
  ∧ State.fusions_by_coordinate
      (process_line is_read_through uninitialized contigs genes evalue_cutoff
         max_mate_gap st line) = State.fusions_by_coordinate st.
Proof.
  intros Hword Hgene.
  assert (Hitems : line_items uninitialized contigs genes line = None).
  { unfold line_items. destruct line as [|c line]; [done|].
    destruct (is_comment (String c line)); [done|].
    assert (Htokens : line_tokens (String c line) = (String c line, EmptyString)).
    { assert (Hfirst : Stream.extract_string (Stream.init (String c line)) ""
                       = (Stream.mk "" true false, String c line)).
      { unfold Stream.extract_string, Stream.init, Stream.good.
        cbn [Stream.buf Stream.eofbit Stream.failbit negb andb].
        pose proof Hword as [Hc%negb_true_iff _]%andb_true_iff.
        rewrite (skip_ws_word c line Hc).
        by rewrite (proj2 (read_word_plain _ (String c line) ""
                             (λ c, proj1 (negb_true_iff _)) Hword)). }
      unfold line_tokens. by rewrite Hfirst. }
    rewrite Htokens. cbn [fst snd].
    destruct (parse_blacklist_item (String c line) _ _ _ _) as [[[] ?] ?]; [|done].
    unfold parse_blacklist_item. cbv zeta. cbn [andb String.eqb]. by rewrite Hgene. }
  pose proof (process_line_core is_read_through uninitialized contigs genes
                evalue_cutoff max_mate_gap st line) as Hcore.
  unfold line_step in Hcore. rewrite Hitems in Hcore.
  unfold core in Hcore. by injection Hcore as -> ->.
Qed.

Lemma one_word_line_is_skipped_witness :
  State.fusions
    (process_line Sample.is_read_through Sample.uninitialized Sample.contigs Sample.genes
       Sample.zero 0
       (State.mk [Sample.recoverable] (build_index [Sample.recoverable]) [])
       "chr1:1001")
  = [Sample.recoverable].
Proof.
  exact (proj1 (one_word_line_is_skipped Sample.is_read_through Sample.uninitialized
                  Sample.contigs Sample.genes Sample.zero 0
                  (State.mk [Sample.recoverable] (build_index [Sample.recoverable]) [])
                  "chr1:1001" eq_refl eq_refl)).
Defined.


